(** * OpenROV teleoperation node (teleop/src/teleop.cpp)

    A shallow embedding of the joystick-to-thruster pipeline of the
    [OpenROVTeleop] class and of its light and laser outputs.

    Numbers.  The C++ code computes with [double] and stores the light
    level and the joystick axes as 32-bit floats.  The code is read twice.

    In exact arithmetic (the first part) every such value is a rational of
    [Q]: the arithmetic is the real arithmetic that the floating-point
    operations approximate, a statement about rationals is written with
    [==] ([Qeq]), and rounding, overflow, infinities and NaN do not exist.
    What is proved there is a property of the computation the code
    describes, for finite values and up to rounding.

    In IEEE arithmetic (module [IEEE]) the same code runs on binary64 and
    binary32 numbers with the correctly rounded operations of the
    Standard Library's [SpecFloat], infinities and NaN included.  This is
    the arithmetic of the C++ program; the properties proved there hold
    of the code as it runs, and the counterexamples found there show
    where the code departs from its exact reading.

    Integers ([int], [Int32]) are [Z]; the only place where the code
    could leave the range of [int] is the conversion of a [double] to
    [int], which is modelled as partial.

    Undefined behaviour.  Reading a [std::vector] out of range with
    [operator[]], returning a local that was never assigned, converting an
    out-of-range [double] to [int] and inverting a singular matrix have no
    result in the model: the functions return [option], [None] standing for
    "the C++ program has no defined result here". *)

From Stdlib Require Import QArith Qround Qabs ZArith Lia Lqa List Bool SpecFloat.
Import ListNotations.

Local Open Scope Q_scope.

(** ** The option monad threading undefined behaviour *)

Definition bind {A B : Type} (c : option A) (k : A -> option B) : option B :=
  match c with
  | Some a => k a
  | None => None
  end.

Notation "x <- c ;; k" := (bind c (fun x => k))
  (at level 61, c at next level, right associativity).
Notation "' pat <- c ;; k" := (bind c (fun x => match x with pat => k end))
  (at level 61, pat pattern, c at next level, right associativity).

(** ** C and C++ primitives used by the node *)

Module Cxx.

(** [a < b] on numbers. *)
Definition ltb (a b : Q) : bool :=
  match a ?= b with
  | Lt => true
  | _ => false
  end.

(** [a == b] on numbers. *)
Definition eqb (a b : Q) : bool := Qeq_bool a b.

(** [std::max(a, b)] is [(a < b) ? b : a]. *)
Definition std_max (a b : Q) : Q := if ltb a b then b else a.

(** [std::min(a, b)] is [(b < a) ? b : a]. *)
Definition std_min (a b : Q) : Q := if ltb b a then b else a.

(** [std::abs] on a [double]. *)
Definition std_abs (a : Q) : Q := Qabs a.

(** [round] of <math.h>: the nearest integer, halfway cases away from
    zero.  The integer is kept as a [Z]; [round] returns it as a
    [double]. *)
Definition round_Z (x : Q) : Z :=
  if ltb x 0 then Qceiling (x - (1 # 2)) else Qfloor (x + (1 # 2)).

Definition round (x : Q) : Q := inject_Z (round_Z x).

Definition INT_MIN : Z := (- 2147483648)%Z.
Definition INT_MAX : Z := 2147483647%Z.

(** Conversion of a [double] to [int]: the fractional part is discarded
    (truncation toward zero); the behaviour is undefined when the
    truncated value does not fit an [int]. *)
Definition trunc (x : Q) : Z :=
  if ltb x 0 then Qceiling x else Qfloor x.

Definition int_of_double (x : Q) : option Z :=
  let t := trunc x in
  if ((INT_MIN <=? t)%Z && (t <=? INT_MAX)%Z)%bool then Some t else None.

(** [v[i]] on a [std::vector] with an [int] index: no bounds check, so
    the read is undefined unless [0 <= i < v.size()] (a negative [int]
    converts to a huge unsigned index). *)
Definition vec_at {A : Type} (v : list A) (i : Z) : option A :=
  if (i <? 0)%Z then None else nth_error v (Z.to_nat i).

End Cxx.

(** ** Eigen: 3-vectors and 3x3 matrices of [double] *)

Module Eigen.

Record Vector3d : Type := Vector3 { vx : Q; vy : Q; vz : Q }.

Record Matrix3d : Type := Matrix3 {
  m00 : Q; m01 : Q; m02 : Q;
  m10 : Q; m11 : Q; m12 : Q;
  m20 : Q; m21 : Q; m22 : Q
}.

(** Componentwise equality of values. *)
Definition veq (u v : Vector3d) : Prop :=
  vx u == vx v /\ vy u == vy v /\ vz u == vz v.

(** [M(i, j)], indices taken modulo 3 as the cofactor computation does. *)
Definition coeff (M : Matrix3d) (i j : nat) : Q :=
  match (i mod 3)%nat, (j mod 3)%nat with
  | 0%nat, 0%nat => m00 M | 0%nat, 1%nat => m01 M | 0%nat, _ => m02 M
  | 1%nat, 0%nat => m10 M | 1%nat, 1%nat => m11 M | 1%nat, _ => m12 M
  | _, 0%nat => m20 M | _, 1%nat => m21 M | _, _ => m22 M
  end.

(** [M * v]. *)
Definition mul_vec (M : Matrix3d) (v : Vector3d) : Vector3d :=
  Vector3 (m00 M * vx v + m01 M * vy v + m02 M * vz v)
          (m10 M * vx v + m11 M * vy v + m12 M * vz v)
          (m20 M * vx v + m21 M * vy v + m22 M * vz v).

(** The cofactor of an entry of a 3x3 matrix, as Eigen's fixed-size
    inverse computes it: rows [i+1], [i+2] and columns [j+1], [j+2],
    indices modulo 3. *)
Definition cofactor_3x3 (M : Matrix3d) (i j : nat) : Q :=
  coeff M (i + 1) (j + 1) * coeff M (i + 2) (j + 2)
  - coeff M (i + 1) (j + 2) * coeff M (i + 2) (j + 1).

(** The determinant, expanded along the first column. *)
Definition determinant (M : Matrix3d) : Q :=
  cofactor_3x3 M 0 0 * m00 M + cofactor_3x3 M 1 0 * m10 M
  + cofactor_3x3 M 2 0 * m20 M.

(** [M.inverse()] for a fixed-size 3x3 matrix: the transposed cofactors
    times [1 / det].  Eigen performs no singularity check; with a zero
    determinant the C++ result is made of infinities and NaN, which the
    rationals do not have, so the model has no result there. *)
Definition inverse (M : Matrix3d) : option Matrix3d :=
  let det := determinant M in
  if Cxx.eqb det 0 then None
  else
    let invdet := 1 / det in
    let c := fun i j => cofactor_3x3 M j i * invdet in
    Some (Matrix3 (c 0 0) (c 0 1) (c 0 2)
                  (c 1 0) (c 1 1) (c 1 2)
                  (c 2 0) (c 2 1) (c 2 2))%nat.

End Eigen.

Import Eigen.

(** ** Messages *)

(** [sensor_msgs::Joy]: the axis values and the button states of one
    joystick sample. *)
Record Joy : Type := { axes : list Q; buttons : list Z }.

(** Modelled from the spec: the message type [openrov::motortarget]
    (openrov/motortarget.h is generated and not part of the sources); the
    spec gives the motor command as a triple of integer pulse widths, in
    the order port, vertical, starboard, and the code writes [motors[0]],
    [motors[1]] and [motors[2]]. *)
Record motortarget : Type := { motors0 : Z; motors1 : Z; motors2 : Z }.

(** What the node publishes, by topic. *)
Inductive Published : Type :=
| pub_motortarget (m : motortarget)      (* /openrov/motortarget *)
| pub_light_command (v : Q)              (* /openrov/light_command *)
| pub_laser_toggle (v : Z).              (* /openrov/laser_toggle *)

(** ** The node *)

(** The values the parameter server holds, if any. *)
Record Params : Type := {
  X_stick : option Z;
  Z_stick : option Z;
  Yaw_stick : option Z;
  lights_adj : option Z;
  laser_tottle : option Z;
  camera_tilt : option Z;
  p_x_gain : option Q;
  p_z_gain : option Q;
  p_yaw_gain : option Q
}.

(** [nh.param(name, var, default)]: the stored value, else the default. *)
Definition nh_param {A : Type} (stored : option A) (default : A) : A :=
  match stored with
  | Some v => v
  | None => default
  end.

Definition no_params : Params :=
  {| X_stick := None; Z_stick := None; Yaw_stick := None;
     lights_adj := None; laser_tottle := None; camera_tilt := None;
     p_x_gain := None; p_z_gain := None; p_yaw_gain := None |}.

(** The data members of [class OpenROVTeleop] that the callbacks read or
    write.  The member [A] is overwritten at the start of every
    [joyCallback] before it is read, so it is a local value below. *)
Record OpenROVTeleop : Type := {
  x_controllerAxis : Z;
  z_controllerAxis : Z;
  yaw_controllerAxis : Z;
  lightsAdjButton : Z;
  laserToggleButton : Z;
  camTiltButton : Z;
  x_gain : Q;
  z_gain : Q;
  yaw_gain : Q;
  motor_cmds : motortarget;
  d : Q;
  lightVal : Q;
  oldLightVal : Q;
  laserToggle : Z;
  oldLaserToggle : Z
}.

(** The constructor: defaults, overridden by the parameter server, then
    the fixed thruster offset and the initial light and laser state.  A
    ROS message is zero-initialised. *)
Definition OpenROVTeleop_new (ps : Params) : OpenROVTeleop :=
  {| x_controllerAxis := nh_param (X_stick ps) 1%Z;
     z_controllerAxis := nh_param (Z_stick ps) 4%Z;
     yaw_controllerAxis := nh_param (Yaw_stick ps) 0%Z;
     lightsAdjButton := nh_param (lights_adj ps) 6%Z;
     laserToggleButton := nh_param (laser_tottle ps) 4%Z;
     camTiltButton := nh_param (camera_tilt ps) 7%Z;
     x_gain := nh_param (p_x_gain ps) 4;
     z_gain := nh_param (p_z_gain ps) 3;
     yaw_gain := nh_param (p_yaw_gain ps) 0.3;
     motor_cmds := {| motors0 := 0; motors1 := 0; motors2 := 0 |};
     d := 0.045;
     lightVal := 0;
     oldLightVal := 0;
     laserToggle := 0;
     oldLaserToggle := 0 |}.

(** Assignments to the mutable members. *)
Definition set_motor_cmds (self : OpenROVTeleop) (m : motortarget) :=
  {| x_controllerAxis := x_controllerAxis self;
     z_controllerAxis := z_controllerAxis self;
     yaw_controllerAxis := yaw_controllerAxis self;
     lightsAdjButton := lightsAdjButton self;
     laserToggleButton := laserToggleButton self;
     camTiltButton := camTiltButton self;
     x_gain := x_gain self; z_gain := z_gain self; yaw_gain := yaw_gain self;
     motor_cmds := m;
     d := d self;
     lightVal := lightVal self; oldLightVal := oldLightVal self;
     laserToggle := laserToggle self; oldLaserToggle := oldLaserToggle self |}.

Definition set_light (self : OpenROVTeleop) (l old : Q) :=
  {| x_controllerAxis := x_controllerAxis self;
     z_controllerAxis := z_controllerAxis self;
     yaw_controllerAxis := yaw_controllerAxis self;
     lightsAdjButton := lightsAdjButton self;
     laserToggleButton := laserToggleButton self;
     camTiltButton := camTiltButton self;
     x_gain := x_gain self; z_gain := z_gain self; yaw_gain := yaw_gain self;
     motor_cmds := motor_cmds self;
     d := d self;
     lightVal := l; oldLightVal := old;
     laserToggle := laserToggle self; oldLaserToggle := oldLaserToggle self |}.

Definition set_laser (self : OpenROVTeleop) (t old : Z) :=
  {| x_controllerAxis := x_controllerAxis self;
     z_controllerAxis := z_controllerAxis self;
     yaw_controllerAxis := yaw_controllerAxis self;
     lightsAdjButton := lightsAdjButton self;
     laserToggleButton := laserToggleButton self;
     camTiltButton := camTiltButton self;
     x_gain := x_gain self; z_gain := z_gain self; yaw_gain := yaw_gain self;
     motor_cmds := motor_cmds self;
     d := d self;
     lightVal := lightVal self; oldLightVal := oldLightVal self;
     laserToggle := t; oldLaserToggle := old |}.

(** ** Thrust curves *)

(** [computePctThrustGraupner230860]: port and starboard thrusters.  The
    local [pctThrust] is declared without a value and assigned by three
    independent [if] statements. *)
Definition computePctThrustGraupner230860 (fDes : Q) : option Q :=
  let pctThrust : option Q := None in
  let pctThrust := if Cxx.ltb 0 fDes then Some (fDes / 14.7) else pctThrust in
  let pctThrust := if Cxx.ltb fDes 0 then Some (fDes / 11) else pctThrust in
  let pctThrust := if Cxx.eqb fDes 0 then Some 0 else pctThrust in
  pctThrust.

(** [computePctThrustGraupner230357]: the vertical thruster. *)
Definition computePctThrustGraupner230357 (fDes : Q) : option Q :=
  let pctThrust : option Q := None in
  let pctThrust := if Cxx.ltb 0 fDes then Some (fDes / 14.7) else pctThrust in
  let pctThrust := if Cxx.ltb fDes 0 then Some (fDes / 14.7) else pctThrust in
  let pctThrust := if Cxx.eqb fDes 0 then Some 0 else pctThrust in
  pctThrust.

(** ** Saturation *)

(** [limitThrusterSaturation]: the factor that brings the three fractions
    back into range, 1 when none is out of range. *)
Definition limitThrusterSaturation (Ppct_d Vpct_d Spct_d : Q) : Q :=
  let max := Cxx.std_max Ppct_d Vpct_d in
  let max := Cxx.std_max max Spct_d in
  let min := Cxx.std_min Ppct_d Vpct_d in
  let min := Cxx.std_min min Spct_d in
  if (Cxx.ltb min (-1) || Cxx.ltb 1 max)%bool
  then 1 / Cxx.std_max (Cxx.std_abs min) max
  else 1.

(** ** [joyCallback] *)

(** The thruster allocation matrix filled by [A << 1, 0, 1, 0, 1, 0, -d, 0, d]. *)
Definition allocation (d : Q) : Matrix3d :=
  Matrix3 1 0 1
          0 1 0
          (- d) 0 d.

(** [int ms = 1500 + round(x * 500)], where [x] is a scaled fraction
    [pct * scaleFactor]: the sum is a [double], converted to [int] by the
    assignment. *)
Definition pulse_width (x : Q) : option Z :=
  Cxx.int_of_double (1500 + Cxx.round (x * 500)).

(** The solution [T = A.inverse() * F] of the allocation. *)
Definition thruster_forces (d : Q) (F : Vector3d) : option Vector3d :=
  Ainv <- inverse (allocation d) ;;
  Some (mul_vec Ainv F).

(** The wrench read from the sample: gains times the configured axes. *)
Definition desired_wrench (self : OpenROVTeleop) (joy : Joy) : option Vector3d :=
  ax <- Cxx.vec_at (axes joy) (x_controllerAxis self) ;;
  let fx_d := x_gain self * ax in
  az <- Cxx.vec_at (axes joy) (z_controllerAxis self) ;;
  let fz_d := z_gain self * az in
  ayaw <- Cxx.vec_at (axes joy) (yaw_controllerAxis self) ;;
  let mz_d := yaw_gain self * ayaw in
  Some (Vector3 fx_d fz_d mz_d).

(** The three fractions of the requested thrust. *)
Definition pct_thrust (T : Vector3d) : option (Q * Q * Q) :=
  Ppct_d <- computePctThrustGraupner230860 (vx T) ;;
  Vpct_d <- computePctThrustGraupner230357 (vy T) ;;
  Spct_d <- computePctThrustGraupner230860 (vz T) ;;
  Some (Ppct_d, Vpct_d, Spct_d).

(** The pulse widths of three fractions, scaled out of saturation. *)
Definition esc_vals (pct : Q * Q * Q) : option motortarget :=
  let '(Ppct_d, Vpct_d, Spct_d) := pct in
  let scaleFactor := limitThrusterSaturation Ppct_d Vpct_d Spct_d in
  Pms <- pulse_width (Ppct_d * scaleFactor) ;;
  Vms <- pulse_width (Vpct_d * scaleFactor) ;;
  Sms <- pulse_width (Spct_d * scaleFactor) ;;
  Some {| motors0 := Pms; motors1 := Vms; motors2 := Sms |}.

(** The THRUSTER section: wrench, allocation, thrust curves, saturation,
    pulse widths, stored in [motor_cmds] (nothing is published here). *)
Definition joy_thrusters (self : OpenROVTeleop) (joy : Joy) : option OpenROVTeleop :=
  F <- desired_wrench self joy ;;
  T <- thruster_forces (d self) F ;;
  pct <- pct_thrust T ;;
  cmds <- esc_vals pct ;;
  Some (set_motor_cmds self cmds).

(** The LIGHTS section: accumulate, clamp with two [if] statements, and
    publish when the value differs from the last published one. *)
Definition joy_lights (self : OpenROVTeleop) (joy : Joy)
  : option (OpenROVTeleop * list Published) :=
  a <- Cxx.vec_at (axes joy) (lightsAdjButton self) ;;
  let l := lightVal self + a * (-0.1) in
  let l := if Cxx.ltb 1 l then 1 else l in
  let l := if Cxx.ltb l 0 then 0 else l in
  if negb (Cxx.eqb (oldLightVal self) l)
  then Some (set_light self l l, [pub_light_command l])
  else Some (set_light self l (oldLightVal self), []).

(** The LASERS section. *)
Definition joy_lasers (self : OpenROVTeleop) (joy : Joy)
  : option (OpenROVTeleop * list Published) :=
  b <- Cxx.vec_at (buttons joy) (laserToggleButton self) ;;
  if negb (b =? 0)%Z then
    if (laserToggle self =? oldLaserToggle self)%Z then
      let t := if (oldLaserToggle self =? 0)%Z then 255%Z else 0%Z in
      Some (set_laser self t t, [pub_laser_toggle t])
    else Some (self, [])
  else Some (self, []).

Definition joyCallback (self : OpenROVTeleop) (joy : Joy)
  : option (OpenROVTeleop * list Published) :=
  self <- joy_thrusters self joy ;;
  '(self, lights) <- joy_lights self joy ;;
  '(self, lasers) <- joy_lasers self joy ;;
  Some (self, lights ++ lasers).

(** [timerCallback] publishes the stored motor command. *)
Definition timerCallback (self : OpenROVTeleop) : OpenROVTeleop * list Published :=
  (self, [pub_motortarget (motor_cmds self)]).

(** ** The event loop *)

(** [ros::spin] delivers joystick samples and timer ticks one at a time. *)
Inductive Event : Type :=
| JoyEvent (joy : Joy)
| TimerEvent.

Definition dispatch (self : OpenROVTeleop) (e : Event)
  : option (OpenROVTeleop * list Published) :=
  match e with
  | JoyEvent joy => joyCallback self joy
  | TimerEvent => Some (timerCallback self)
  end.

Fixpoint spin (self : OpenROVTeleop) (events : list Event)
  : option (OpenROVTeleop * list Published) :=
  match events with
  | [] => Some (self, [])
  | e :: events =>
      '(self, out) <- dispatch self e ;;
      '(self, outs) <- spin self events ;;
      Some (self, out ++ outs)
  end.

(** * The code in IEEE arithmetic

    The same code with the numbers the C++ program has: [double] is
    IEEE binary64 and [float] (the joystick axes of [sensor_msgs::Joy],
    [lightVal.data], [oldLightVal]) is binary32, both with the
    operations of the Standard Library's [SpecFloat]: correctly rounded,
    round to nearest even, with signed zeros, infinities and NaN.  A
    comparison with a NaN operand is false.  The definitions above are
    the exact-arithmetic reading of this code; the ones below follow it
    operation by operation. *)

Module IEEE.

Definition double : Type := spec_float.
Definition float : Type := spec_float.

Definition NaN : spec_float := S754_nan.
Definition infinity : spec_float := S754_infinity false.

(** ** binary64 *)

Module D.

Definition prec : Z := 53%Z.
Definition emax : Z := 1024%Z.

Definition add : double -> double -> double := SFadd prec emax.
Definition sub : double -> double -> double := SFsub prec emax.
Definition mul : double -> double -> double := SFmul prec emax.
Definition div : double -> double -> double := SFdiv prec emax.
Definition opp : double -> double := SFopp.
Definition abs : double -> double := SFabs.
Definition ltb : double -> double -> bool := SFltb.
Definition leb : double -> double -> bool := SFleb.
Definition eqb : double -> double -> bool := SFeqb.

(** An [int] converted to [double] (exact below 2^53). *)
Definition of_Z (n : Z) : double := binary_normalize prec emax n 0 false.

(** The decimal literal [n / d] of the source: the nearest double. *)
Definition lit (n : Z) (d : positive) : double := div (of_Z n) (of_Z (Zpos d)).

End D.

(** ** binary32 *)

Module F.

Definition prec : Z := 24%Z.
Definition emax : Z := 128%Z.

Definition ltb : float -> float -> bool := SFltb.
Definition leb : float -> float -> bool := SFleb.
Definition eqb : float -> float -> bool := SFeqb.

(** An [int] converted to [float]. *)
Definition of_Z (n : Z) : float := binary_normalize prec emax n 0 false.

End F.

(** A [float] converted to [double]: exact. *)
Definition double_of_float (x : float) : double :=
  match x with
  | S754_finite s m e => binary_round D.prec D.emax s m e
  | _ => x
  end.

(** A [double] converted to [float]: rounded to the nearest binary32. *)
Definition float_of_double (x : double) : float :=
  match x with
  | S754_finite s m e => binary_round F.prec F.emax s m e
  | _ => x
  end.

(** ** C and C++ primitives *)

(** [std::max(a, b)] is [(a < b) ? b : a]. *)
Definition std_max (a b : double) : double := if D.ltb a b then b else a.

(** [std::min(a, b)] is [(b < a) ? b : a]. *)
Definition std_min (a b : double) : double := if D.ltb b a then b else a.

Definition std_abs (a : double) : double := D.abs a.

(** [round] of <math.h>: the nearest integer, halves away from zero;
    zeros, infinities, NaN and doubles that are integers already are
    returned as they are. *)
Definition round (x : double) : double :=
  match x with
  | S754_finite s m (Zneg p) =>
      let n := Z.shiftr (Zpos m + Z.shiftl 1 (Zpos p - 1)) (Zpos p) in
      binary_normalize D.prec D.emax (cond_Zopp s n) 0 s
  | _ => x
  end.

(** Conversion of a [double] to [int]: truncation toward zero; undefined
    for NaN, for an infinity and when the truncated value does not fit
    an [int]. *)
Definition int_of_double (x : double) : option Z :=
  match x with
  | S754_zero _ => Some 0%Z
  | S754_finite s m e =>
      let t := cond_Zopp s (match e with
                            | Zneg p => Z.shiftr (Zpos m) (Zpos p)
                            | _ => Z.shiftl (Zpos m) e
                            end) in
      if ((Cxx.INT_MIN <=? t)%Z && (t <=? Cxx.INT_MAX)%Z)%bool
      then Some t else None
  | _ => None
  end.

(** ** Eigen on doubles *)

Record Vector3d : Type := Vector3 { vx : double; vy : double; vz : double }.

Record Matrix3d : Type := Matrix3 {
  m00 : double; m01 : double; m02 : double;
  m10 : double; m11 : double; m12 : double;
  m20 : double; m21 : double; m22 : double
}.

Definition coeff (M : Matrix3d) (i j : nat) : double :=
  match (i mod 3)%nat, (j mod 3)%nat with
  | 0%nat, 0%nat => m00 M | 0%nat, 1%nat => m01 M | 0%nat, _ => m02 M
  | 1%nat, 0%nat => m10 M | 1%nat, 1%nat => m11 M | 1%nat, _ => m12 M
  | _, 0%nat => m20 M | _, 1%nat => m21 M | _, _ => m22 M
  end.

(** A sum of three products, added left to right.  (In the allocation
    and its inverse at most two of the three products differ from zero
    for finite operands, so the order of the additions does not change
    the result.) *)
Definition dot3 (a0 b0 a1 b1 a2 b2 : double) : double :=
  D.add (D.add (D.mul a0 b0) (D.mul a1 b1)) (D.mul a2 b2).

(** [M * v]. *)
Definition mul_vec (M : Matrix3d) (v : Vector3d) : Vector3d :=
  Vector3 (dot3 (m00 M) (vx v) (m01 M) (vy v) (m02 M) (vz v))
          (dot3 (m10 M) (vx v) (m11 M) (vy v) (m12 M) (vz v))
          (dot3 (m20 M) (vx v) (m21 M) (vy v) (m22 M) (vz v)).

Definition cofactor_3x3 (M : Matrix3d) (i j : nat) : double :=
  D.sub (D.mul (coeff M (i + 1) (j + 1)) (coeff M (i + 2) (j + 2)))
        (D.mul (coeff M (i + 1) (j + 2)) (coeff M (i + 2) (j + 1))).

Definition determinant (M : Matrix3d) : double :=
  dot3 (cofactor_3x3 M 0 0) (m00 M) (cofactor_3x3 M 1 0) (m10 M)
       (cofactor_3x3 M 2 0) (m20 M).

(** [M.inverse()] for a fixed-size 3x3 matrix: the transposed cofactors
    times [1 / det], with no singularity check. *)
Definition inverse (M : Matrix3d) : Matrix3d :=
  let invdet := D.div (D.of_Z 1) (determinant M) in
  let c := fun i j => D.mul (cofactor_3x3 M j i) invdet in
  (Matrix3 (c 0 0) (c 0 1) (c 0 2)
           (c 1 0) (c 1 1) (c 1 2)
           (c 2 0) (c 2 1) (c 2 2))%nat.

(** ** Messages and the node *)

Record Joy : Type := { axes : list float; buttons : list Z }.

Inductive Published : Type :=
| pub_motortarget (m : motortarget)
| pub_light_command (v : float)
| pub_laser_toggle (v : Z).

Record Params : Type := {
  X_stick : option Z;
  Z_stick : option Z;
  Yaw_stick : option Z;
  lights_adj : option Z;
  laser_tottle : option Z;
  camera_tilt : option Z;
  p_x_gain : option double;
  p_z_gain : option double;
  p_yaw_gain : option double
}.

Definition no_params : Params :=
  {| X_stick := None; Z_stick := None; Yaw_stick := None;
     lights_adj := None; laser_tottle := None; camera_tilt := None;
     p_x_gain := None; p_z_gain := None; p_yaw_gain := None |}.

Record OpenROVTeleop : Type := {
  x_controllerAxis : Z;
  z_controllerAxis : Z;
  yaw_controllerAxis : Z;
  lightsAdjButton : Z;
  laserToggleButton : Z;
  camTiltButton : Z;
  x_gain : double;
  z_gain : double;
  yaw_gain : double;
  motor_cmds : motortarget;
  d : double;
  lightVal : float;
  oldLightVal : float;
  laserToggle : Z;
  oldLaserToggle : Z
}.

Definition OpenROVTeleop_new (ps : Params) : OpenROVTeleop :=
  {| x_controllerAxis := nh_param (X_stick ps) 1%Z;
     z_controllerAxis := nh_param (Z_stick ps) 4%Z;
     yaw_controllerAxis := nh_param (Yaw_stick ps) 0%Z;
     lightsAdjButton := nh_param (lights_adj ps) 6%Z;
     laserToggleButton := nh_param (laser_tottle ps) 4%Z;
     camTiltButton := nh_param (camera_tilt ps) 7%Z;
     x_gain := nh_param (p_x_gain ps) (D.of_Z 4);
     z_gain := nh_param (p_z_gain ps) (D.of_Z 3);
     yaw_gain := nh_param (p_yaw_gain ps) (D.lit 3 10);
     motor_cmds := {| motors0 := 0; motors1 := 0; motors2 := 0 |};
     d := D.lit 45 1000;
     lightVal := F.of_Z 0;
     oldLightVal := F.of_Z 0;
     laserToggle := 0;
     oldLaserToggle := 0 |}.

Definition set_motor_cmds (self : OpenROVTeleop) (m : motortarget) :=
  {| x_controllerAxis := x_controllerAxis self;
     z_controllerAxis := z_controllerAxis self;
     yaw_controllerAxis := yaw_controllerAxis self;
     lightsAdjButton := lightsAdjButton self;
     laserToggleButton := laserToggleButton self;
     camTiltButton := camTiltButton self;
     x_gain := x_gain self; z_gain := z_gain self; yaw_gain := yaw_gain self;
     motor_cmds := m;
     d := d self;
     lightVal := lightVal self; oldLightVal := oldLightVal self;
     laserToggle := laserToggle self; oldLaserToggle := oldLaserToggle self |}.

Definition set_light (self : OpenROVTeleop) (l old : float) :=
  {| x_controllerAxis := x_controllerAxis self;
     z_controllerAxis := z_controllerAxis self;
     yaw_controllerAxis := yaw_controllerAxis self;
     lightsAdjButton := lightsAdjButton self;
     laserToggleButton := laserToggleButton self;
     camTiltButton := camTiltButton self;
     x_gain := x_gain self; z_gain := z_gain self; yaw_gain := yaw_gain self;
     motor_cmds := motor_cmds self;
     d := d self;
     lightVal := l; oldLightVal := old;
     laserToggle := laserToggle self; oldLaserToggle := oldLaserToggle self |}.

Definition set_laser (self : OpenROVTeleop) (t old : Z) :=
  {| x_controllerAxis := x_controllerAxis self;
     z_controllerAxis := z_controllerAxis self;
     yaw_controllerAxis := yaw_controllerAxis self;
     lightsAdjButton := lightsAdjButton self;
     laserToggleButton := laserToggleButton self;
     camTiltButton := camTiltButton self;
     x_gain := x_gain self; z_gain := z_gain self; yaw_gain := yaw_gain self;
     motor_cmds := motor_cmds self;
     d := d self;
     lightVal := lightVal self; oldLightVal := oldLightVal self;
     laserToggle := t; oldLaserToggle := old |}.

(** ** Thrust curves *)

(** For a NaN force none of the three tests holds and the local is
    returned as it was declared, without a value. *)
Definition computePctThrustGraupner230860 (fDes : double) : option double :=
  let pctThrust : option double := None in
  let pctThrust :=
    if D.ltb (D.of_Z 0) fDes then Some (D.div fDes (D.lit 147 10)) else pctThrust in
  let pctThrust :=
    if D.ltb fDes (D.of_Z 0) then Some (D.div fDes (D.of_Z 11)) else pctThrust in
  let pctThrust :=
    if D.eqb fDes (D.of_Z 0) then Some (D.of_Z 0) else pctThrust in
  pctThrust.

Definition computePctThrustGraupner230357 (fDes : double) : option double :=
  let pctThrust : option double := None in
  let pctThrust :=
    if D.ltb (D.of_Z 0) fDes then Some (D.div fDes (D.lit 147 10)) else pctThrust in
  let pctThrust :=
    if D.ltb fDes (D.of_Z 0) then Some (D.div fDes (D.lit 147 10)) else pctThrust in
  let pctThrust :=
    if D.eqb fDes (D.of_Z 0) then Some (D.of_Z 0) else pctThrust in
  pctThrust.

(** ** Saturation *)

Definition limitThrusterSaturation (Ppct_d Vpct_d Spct_d : double) : double :=
  let max := std_max Ppct_d Vpct_d in
  let max := std_max max Spct_d in
  let min := std_min Ppct_d Vpct_d in
  let min := std_min min Spct_d in
  if (D.ltb min (D.of_Z (-1)) || D.ltb (D.of_Z 1) max)%bool
  then D.div (D.of_Z 1) (std_max (std_abs min) max)
  else D.of_Z 1.

(** ** [joyCallback] *)

Definition allocation (d : double) : Matrix3d :=
  Matrix3 (D.of_Z 1) (D.of_Z 0) (D.of_Z 1)
          (D.of_Z 0) (D.of_Z 1) (D.of_Z 0)
          (D.opp d) (D.of_Z 0) d.

(** [int ms = 1500 + round(x * 500)]. *)
Definition pulse_width (x : double) : option Z :=
  int_of_double (D.add (D.of_Z 1500) (round (D.mul x (D.of_Z 500)))).

Definition thruster_forces (d : double) (F : Vector3d) : Vector3d :=
  mul_vec (inverse (allocation d)) F.

Definition desired_wrench (self : OpenROVTeleop) (joy : Joy) : option Vector3d :=
  ax <- Cxx.vec_at (axes joy) (x_controllerAxis self) ;;
  let fx_d := D.mul (x_gain self) (double_of_float ax) in
  az <- Cxx.vec_at (axes joy) (z_controllerAxis self) ;;
  let fz_d := D.mul (z_gain self) (double_of_float az) in
  ayaw <- Cxx.vec_at (axes joy) (yaw_controllerAxis self) ;;
  let mz_d := D.mul (yaw_gain self) (double_of_float ayaw) in
  Some (Vector3 fx_d fz_d mz_d).

Definition pct_thrust (T : Vector3d) : option (double * double * double) :=
  Ppct_d <- computePctThrustGraupner230860 (vx T) ;;
  Vpct_d <- computePctThrustGraupner230357 (vy T) ;;
  Spct_d <- computePctThrustGraupner230860 (vz T) ;;
  Some (Ppct_d, Vpct_d, Spct_d).

Definition esc_vals (pct : double * double * double) : option motortarget :=
  let '(Ppct_d, Vpct_d, Spct_d) := pct in
  let scaleFactor := limitThrusterSaturation Ppct_d Vpct_d Spct_d in
  Pms <- pulse_width (D.mul Ppct_d scaleFactor) ;;
  Vms <- pulse_width (D.mul Vpct_d scaleFactor) ;;
  Sms <- pulse_width (D.mul Spct_d scaleFactor) ;;
  Some {| motors0 := Pms; motors1 := Vms; motors2 := Sms |}.

(** The command of the THRUSTER section; it reads the configuration and
    the sample only. *)
Definition thruster_cmds (self : OpenROVTeleop) (joy : Joy) : option motortarget :=
  F <- desired_wrench self joy ;;
  pct <- pct_thrust (thruster_forces (d self) F) ;;
  esc_vals pct.

Definition joy_thrusters (self : OpenROVTeleop) (joy : Joy) : option OpenROVTeleop :=
  cmds <- thruster_cmds self joy ;;
  Some (set_motor_cmds self cmds).

(** [lightVal.data + axis * -0.1], computed in [double] and stored in the
    [float] member. *)
Definition light_sum (l a : float) : float :=
  float_of_double
    (D.add (double_of_float l) (D.mul (double_of_float a) (D.opp (D.lit 1 10)))).

(** The two clamping [if] statements. *)
Definition clamp_light (l : float) : float :=
  let l := if F.ltb (F.of_Z 1) l then F.of_Z 1 else l in
  if F.ltb l (F.of_Z 0) then F.of_Z 0 else l.

Definition joy_lights (self : OpenROVTeleop) (joy : Joy)
  : option (OpenROVTeleop * list Published) :=
  a <- Cxx.vec_at (axes joy) (lightsAdjButton self) ;;
  let l := clamp_light (light_sum (lightVal self) a) in
  if negb (F.eqb (oldLightVal self) l)
  then Some (set_light self l l, [pub_light_command l])
  else Some (set_light self l (oldLightVal self), []).

Definition joy_lasers (self : OpenROVTeleop) (joy : Joy)
  : option (OpenROVTeleop * list Published) :=
  b <- Cxx.vec_at (buttons joy) (laserToggleButton self) ;;
  if negb (b =? 0)%Z then
    if (laserToggle self =? oldLaserToggle self)%Z then
      let t := if (oldLaserToggle self =? 0)%Z then 255%Z else 0%Z in
      Some (set_laser self t t, [pub_laser_toggle t])
    else Some (self, [])
  else Some (self, []).

Definition joyCallback (self : OpenROVTeleop) (joy : Joy)
  : option (OpenROVTeleop * list Published) :=
  self <- joy_thrusters self joy ;;
  '(self, lights) <- joy_lights self joy ;;
  '(self, lasers) <- joy_lasers self joy ;;
  Some (self, lights ++ lasers).

Definition timerCallback (self : OpenROVTeleop) : OpenROVTeleop * list Published :=
  (self, [pub_motortarget (motor_cmds self)]).

Inductive Event : Type :=
| JoyEvent (joy : Joy)
| TimerEvent.

Definition dispatch (self : OpenROVTeleop) (e : Event)
  : option (OpenROVTeleop * list Published) :=
  match e with
  | JoyEvent joy => joyCallback self joy
  | TimerEvent => Some (timerCallback self)
  end.

Fixpoint spin (self : OpenROVTeleop) (events : list Event)
  : option (OpenROVTeleop * list Published) :=
  match events with
  | [] => Some (self, [])
  | e :: events =>
      '(self, out) <- dispatch self e ;;
      '(self, outs) <- spin self events ;;
      Some (self, out ++ outs)
  end.

End IEEE.

(** * Vocabulary of the properties *)

(** A fraction is within the actuator range. *)
Definition in_unit (x : Q) : Prop := -1 <= x <= 1.

(** A pulse width is within the servo range. *)
Definition in_servo_range (ms : Z) : Prop := (1000 <= ms <= 2000)%Z.

(** The light level after the clamp. *)
Definition clamp_light (l : Q) : Q :=
  let l := if Cxx.ltb 1 l then 1 else l in
  if Cxx.ltb l 0 then 0 else l.

(** [i] is a valid index of [v]. *)
Definition index_ok {A : Type} (v : list A) (i : Z) : Prop :=
  (0 <= i < Z.of_nat (length v))%Z.

(** The four axis reads and the button read of [joyCallback] are in
    range. *)
Definition joy_fits (self : OpenROVTeleop) (joy : Joy) : Prop :=
  index_ok (axes joy) (x_controllerAxis self)
  /\ index_ok (axes joy) (z_controllerAxis self)
  /\ index_ok (axes joy) (yaw_controllerAxis self)
  /\ index_ok (axes joy) (lightsAdjButton self)
  /\ index_ok (buttons joy) (laserToggleButton self).

(** The axis sequence is too short for (or a negative index excludes) one
    of the axis reads. *)
Definition axes_short (self : OpenROVTeleop) (joy : Joy) : Prop :=
  ~ index_ok (axes joy) (x_controllerAxis self)
  \/ ~ index_ok (axes joy) (z_controllerAxis self)
  \/ ~ index_ok (axes joy) (yaw_controllerAxis self)
  \/ ~ index_ok (axes joy) (lightsAdjButton self).

(** An event whose sample, if it carries one, covers the configured
    indices. *)
Definition event_fits (self : OpenROVTeleop) (e : Event) : Prop :=
  match e with
  | JoyEvent joy => joy_fits self joy
  | TimerEvent => True
  end.

(** The members that no callback writes: the configuration and [d]. *)
Definition same_config (a b : OpenROVTeleop) : Prop :=
  x_controllerAxis a = x_controllerAxis b
  /\ z_controllerAxis a = z_controllerAxis b
  /\ yaw_controllerAxis a = yaw_controllerAxis b
  /\ lightsAdjButton a = lightsAdjButton b
  /\ laserToggleButton a = laserToggleButton b
  /\ camTiltButton a = camTiltButton b
  /\ x_gain a = x_gain b /\ z_gain a = z_gain b /\ yaw_gain a = yaw_gain b
  /\ d a = d b.

(** The number of messages on /openrov/laser_toggle in an output. *)
Fixpoint laser_toggles (out : list Published) : nat :=
  match out with
  | [] => 0
  | pub_laser_toggle _ :: out => S (laser_toggles out)
  | _ :: out => laser_toggles out
  end.

(** The sample of scenario B: the forward axis (index 1 by default) at
    1.0, every other axis at zero, no button pressed. *)
Definition scenario_B : Joy :=
  {| axes := [0; 1; 0; 0; 0; 0; 0; 0];
     buttons := [0; 0; 0; 0; 0; 0; 0; 0; 0; 0; 0]%Z |}.

(** A sample with the laser button (index 4 by default) held down and
    the axes at rest. *)
Definition laser_held : Joy :=
  {| axes := [0; 0; 0; 0; 0; 0; 0; 0];
     buttons := [0; 0; 0; 0; 1; 0; 0; 0; 0; 0; 0]%Z |}.

(** A sample whose axis sequence has two entries only, too short for the
    default vertical axis (index 4). *)
Definition two_axes : Joy :=
  {| axes := [0; 1];
     buttons := [0; 0; 0; 0; 0; 0; 0; 0; 0; 0; 0]%Z |}.

(** Parameters with a forward gain of 40, strong enough to saturate the
    port and starboard thrusters at full stick. *)
Definition strong_gain : Params :=
  {| X_stick := None; Z_stick := None; Yaw_stick := None;
     lights_adj := None; laser_tottle := None; camera_tilt := None;
     p_x_gain := Some 40; p_z_gain := None; p_yaw_gain := None |}.

(** A sample with the light axis (index 6 by default) pushed to -1, which
    raises the light level by 0.1. *)
Definition light_up : Joy :=
  {| axes := [0; 0; 0; 0; 0; 0; -1; 0];
     buttons := [0; 0; 0; 0; 0; 0; 0; 0; 0; 0; 0]%Z |}.

(** The laser button reads pressed in the sample. *)
Definition laser_pressed (self : OpenROVTeleop) (e : Event) : Prop :=
  match e with
  | JoyEvent joy =>
      exists b, Cxx.vec_at (buttons joy) (laserToggleButton self) = Some b
                /\ b <> 0%Z
  | TimerEvent => False
  end.

(** The sample is turned down and leaves no trace: the callback returns,
    publishes nothing and the stored motor command is the one before. *)
Definition sample_suppressed (self : OpenROVTeleop) (joy : Joy) : Prop :=
  exists self', joyCallback self joy = Some (self', [])
                /\ motor_cmds self' = motor_cmds self.

(** ** Vocabulary of the further properties *)

(** The values published on /openrov/light_command, in order. *)
Fixpoint light_values (out : list Published) : list Q :=
  match out with
  | [] => []
  | pub_light_command v :: out => v :: light_values out
  | _ :: out => light_values out
  end.

(** The values published on /openrov/laser_toggle, in order. *)
Fixpoint laser_values (out : list Published) : list Z :=
  match out with
  | [] => []
  | pub_laser_toggle v :: out => v :: laser_values out
  | _ :: out => laser_values out
  end.

(** The messages published on /openrov/motortarget, in order. *)
Fixpoint motor_values (out : list Published) : list motortarget :=
  match out with
  | [] => []
  | pub_motortarget m :: out => m :: motor_values out
  | _ :: out => motor_values out
  end.

(** The zero-initialised motor command of a node that has seen no
    sample, and the neutral command. *)
Definition zero_cmd : motortarget :=
  {| motors0 := 0; motors1 := 0; motors2 := 0 |}.

Definition neutral_cmd : motortarget :=
  {| motors0 := 1500; motors1 := 1500; motors2 := 1500 |}.

(** The three widths of a command are in the servo range. *)
Definition cmd_in_servo_range (m : motortarget) : Prop :=
  in_servo_range (motors0 m) /\ in_servo_range (motors1 m)
  /\ in_servo_range (motors2 m).

(** The axis read at index [i] is in range and its value is [q]. *)
Definition axis_is (joy : Joy) (i : Z) (q : Q) : Prop :=
  exists a, Cxx.vec_at (axes joy) i = Some a /\ a == q.

(** The event is a sample in which the laser button reads nonzero. *)
Definition pressedb (self : OpenROVTeleop) (e : Event) : bool :=
  match e with
  | JoyEvent joy =>
      match Cxx.vec_at (buttons joy) (laserToggleButton self) with
      | Some b => negb (b =? 0)%Z
      | None => false
      end
  | TimerEvent => false
  end.

(** The number of samples of a run in which the laser button reads
    nonzero. *)
Definition presses (self : OpenROVTeleop) (events : list Event) : nat :=
  length (filter (pressedb self) events).

(** The number of timer ticks of a run. *)
Definition ticks (events : list Event) : nat :=
  length (filter (fun e => match e with TimerEvent => true | _ => false end)
                 events).

(** [n] laser values that alternate, starting with 255 when [on]. *)
Fixpoint blink (n : nat) (on : bool) : list Z :=
  match n with
  | O => []
  | S n => (if on then 255%Z else 0%Z) :: blink n (negb on)
  end.

(** The node with another camera-tilt button index. *)
Definition set_camTiltButton (self : OpenROVTeleop) (c : Z) :=
  {| x_controllerAxis := x_controllerAxis self;
     z_controllerAxis := z_controllerAxis self;
     yaw_controllerAxis := yaw_controllerAxis self;
     lightsAdjButton := lightsAdjButton self;
     laserToggleButton := laserToggleButton self;
     camTiltButton := c;
     x_gain := x_gain self; z_gain := z_gain self; yaw_gain := yaw_gain self;
     motor_cmds := motor_cmds self;
     d := d self;
     lightVal := lightVal self; oldLightVal := oldLightVal self;
     laserToggle := laserToggle self; oldLaserToggle := oldLaserToggle self |}.

(** Two optional fractions are both present and equal as numbers. *)
Definition same_pct (a b : option Q) : Prop :=
  exists x y, a = Some x /\ b = Some y /\ x == y.

(** Each light level of the list is in [0, 1] and differs from the one
    before it, [prev] standing before the first. *)
Fixpoint light_changes (prev : Q) (levels : list Q) : Prop :=
  match levels with
  | [] => True
  | v :: levels => ~ v == prev /\ 0 <= v <= 1 /\ light_changes v levels
  end.

(** ** Vocabulary of the properties in IEEE arithmetic *)

(** A float that is a number (not NaN). *)
Definition is_number (x : spec_float) : Prop := x <> S754_nan.


(** A [double] fraction within [-1, 1]. *)
Definition double_in_unit (x : IEEE.double) : Prop :=
  IEEE.D.leb (IEEE.D.of_Z (-1)) x = true /\ IEEE.D.leb x (IEEE.D.of_Z 1) = true.

(** The same test as a boolean. *)
Definition double_in_unitb (x : IEEE.double) : bool :=
  (IEEE.D.leb (IEEE.D.of_Z (-1)) x && IEEE.D.leb x (IEEE.D.of_Z 1))%bool.

(** [|a - b| <= tol], computed in doubles. *)
Definition within (tol a b : IEEE.double) : bool :=
  IEEE.D.leb (IEEE.D.abs (IEEE.D.sub a b)) tol.

(** The round trip [A * T] of a wrench [F] through the allocation of the
    constructor's offset agrees with [F] within [tol] in every
    component. *)
Definition round_trip_within (tol : IEEE.double) (F : IEEE.Vector3d) : bool :=
  let d := IEEE.d (IEEE.OpenROVTeleop_new IEEE.no_params) in
  let AT := IEEE.mul_vec (IEEE.allocation d) (IEEE.thruster_forces d F) in
  (within tol (IEEE.vx AT) (IEEE.vx F)
   && within tol (IEEE.vy AT) (IEEE.vy F)
   && within tol (IEEE.vz AT) (IEEE.vz F))%bool.

(** Joystick samples of eight axes and eleven buttons, as floats. *)
Definition rest_axes : list IEEE.float := repeat (IEEE.F.of_Z 0) 8.
Definition rest_buttons : list Z := repeat 0%Z 11.

(** The axes at rest except the one at index [i], which reads [v]. *)
Definition one_axis (i : nat) (v : IEEE.float) : IEEE.Joy :=
  {| IEEE.axes := firstn i rest_axes ++ v :: skipn (S i) rest_axes;
     IEEE.buttons := rest_buttons |}.

(** The light levels published on /openrov/light_command, in order. *)
Fixpoint ieee_light_values (out : list IEEE.Published) : list IEEE.float :=
  match out with
  | [] => []
  | IEEE.pub_light_command v :: out => v :: ieee_light_values out
  | _ :: out => ieee_light_values out
  end.



(** The three fractions, scaled by [limitThrusterSaturation], are all
    within [-1, 1]. *)
Definition scaled_in_unitb (p v s : IEEE.double) : bool :=
  let k := IEEE.limitThrusterSaturation p v s in
  (double_in_unitb (IEEE.D.mul p k) && double_in_unitb (IEEE.D.mul v k)
   && double_in_unitb (IEEE.D.mul s k))%bool.

(** The callback returns and the command it stored is in the servo
    range. *)
Definition stores_valid_command (self : IEEE.OpenROVTeleop) (joy : IEEE.Joy) : Prop :=
  exists self' out,
    IEEE.joyCallback self joy = Some (self', out)
    /\ cmd_in_servo_range (IEEE.motor_cmds self').

(** The double nearest to 1.5e308. *)
Definition huge : IEEE.double := S754_finite false 7515631350033648 971.






(** * Properties *)

(** ** Comparisons, maximum and minimum *)

Lemma ltb_lt (a b : Q) : Cxx.ltb a b = true <-> a < b.
Proof.
  unfold Cxx.ltb. rewrite Qlt_alt.
  destruct (a ?= b); split; congruence.
Qed.

Lemma ltb_ge (a b : Q) : Cxx.ltb a b = false <-> b <= a.
Proof.
  split; intro H.
  - apply Qnot_lt_le. intro Hlt. apply ltb_lt in Hlt. congruence.
  - destruct (Cxx.ltb a b) eqn:E; [ | reflexivity ].
    apply ltb_lt in E. exfalso. apply (Qlt_not_le _ _ E H).
Qed.

Lemma eqb_eq (a b : Q) : Cxx.eqb a b = true <-> a == b.
Proof. apply Qeq_bool_iff. Qed.

Lemma eqb_neq (a b : Q) : Cxx.eqb a b = false <-> ~ a == b.
Proof.
  unfold Cxx.eqb. split.
  - apply Qeq_bool_neq.
  - intro H. destruct (Qeq_bool a b) eqn:E; [ | reflexivity ].
    apply Qeq_bool_iff in E. contradiction.
Qed.

Section MaxMin.

Variables a b : Q.

Lemma std_max_le_l : a <= Cxx.std_max a b.
Proof.
  unfold Cxx.std_max. destruct (Cxx.ltb a b) eqn:E.
  - apply ltb_lt in E. lra.
  - lra.
Qed.

Lemma std_max_le_r : b <= Cxx.std_max a b.
Proof.
  unfold Cxx.std_max. destruct (Cxx.ltb a b) eqn:E.
  - lra.
  - apply ltb_ge in E. lra.
Qed.

Lemma std_min_le_l : Cxx.std_min a b <= a.
Proof.
  unfold Cxx.std_min. destruct (Cxx.ltb b a) eqn:E.
  - apply ltb_lt in E. lra.
  - lra.
Qed.

Lemma std_min_le_r : Cxx.std_min a b <= b.
Proof.
  unfold Cxx.std_min. destruct (Cxx.ltb b a) eqn:E.
  - lra.
  - apply ltb_ge in E. lra.
Qed.

Lemma std_max_lub (c : Q) : a <= c -> b <= c -> Cxx.std_max a b <= c.
Proof. unfold Cxx.std_max. destruct (Cxx.ltb a b); trivial. Qed.

Lemma std_min_glb (c : Q) : c <= a -> c <= b -> c <= Cxx.std_min a b.
Proof. unfold Cxx.std_min. destruct (Cxx.ltb b a); trivial. Qed.

End MaxMin.

(** ** Rounding and the conversion to [int] *)

Lemma inject_Z_pred (n : Z) : inject_Z (n - 1) == inject_Z n - 1.
Proof.
  unfold Z.sub. rewrite inject_Z_plus, inject_Z_opp. reflexivity.
Qed.

Lemma inject_Z_succ (n : Z) : inject_Z (n + 1) == inject_Z n + 1.
Proof. rewrite inject_Z_plus. reflexivity. Qed.

Lemma round_Z_inject (n : Z) : Cxx.round_Z (inject_Z n) = n.
Proof.
  unfold Cxx.round_Z. destruct (Cxx.ltb (inject_Z n) 0) eqn:E.
  - assert (H : (Qceiling (inject_Z n - (1 # 2)) <= Qceiling (inject_Z n))%Z)
      by (apply Qceiling_resp_le; lra).
    rewrite Qceiling_Z in H.
    pose proof (Qle_ceiling (inject_Z n - (1 # 2))) as Hc.
    assert (Hn : inject_Z (n - 1) < inject_Z (Qceiling (inject_Z n - (1 # 2)))).
    { rewrite inject_Z_pred. lra. }
    rewrite <- Zlt_Qlt in Hn. lia.
  - assert (H : (Qfloor (inject_Z n) <= Qfloor (inject_Z n + (1 # 2)))%Z)
      by (apply Qfloor_resp_le; lra).
    rewrite Qfloor_Z in H.
    pose proof (Qfloor_le (inject_Z n + (1 # 2))) as Hf.
    assert (Hn : inject_Z (Qfloor (inject_Z n + (1 # 2))) < inject_Z (n + 1)).
    { rewrite inject_Z_succ. lra. }
    rewrite <- Zlt_Qlt in Hn. lia.
Qed.

Lemma round_Z_mono (x y : Q) : x <= y -> (Cxx.round_Z x <= Cxx.round_Z y)%Z.
Proof.
  intro Hxy. unfold Cxx.round_Z.
  destruct (Cxx.ltb x 0) eqn:Ex, (Cxx.ltb y 0) eqn:Ey.
  - apply Qceiling_resp_le. lra.
  - apply ltb_lt in Ex. apply ltb_ge in Ey.
    apply Z.le_trans with 0%Z.
    + change 0%Z with (Qceiling (inject_Z 0)). apply Qceiling_resp_le.
      unfold inject_Z. lra.
    + change 0%Z with (Qfloor (inject_Z 0)). apply Qfloor_resp_le.
      unfold inject_Z. lra.
  - apply ltb_ge in Ex. apply ltb_lt in Ey. lra.
  - apply Qfloor_resp_le. lra.
Qed.

Lemma round_Z_bounds (lo hi : Z) (x : Q) :
  inject_Z lo <= x <= inject_Z hi -> (lo <= Cxx.round_Z x <= hi)%Z.
Proof.
  intros [Hlo Hhi]. split.
  - rewrite <- (round_Z_inject lo). now apply round_Z_mono.
  - rewrite <- (round_Z_inject hi). now apply round_Z_mono.
Qed.

Lemma trunc_inject (n : Z) : Cxx.trunc (inject_Z n) = n.
Proof.
  unfold Cxx.trunc. destruct (Cxx.ltb (inject_Z n) 0).
  - apply Qceiling_Z.
  - apply Qfloor_Z.
Qed.

Lemma trunc_comp (x y : Q) : x == y -> Cxx.trunc x = Cxx.trunc y.
Proof.
  intro H. unfold Cxx.trunc.
  replace (Cxx.ltb y 0) with (Cxx.ltb x 0).
  - destruct (Cxx.ltb x 0); [ now apply Qceiling_comp | now apply Qfloor_comp ].
  - unfold Cxx.ltb. now rewrite H.
Qed.

Lemma int_of_double_integer (n : Z) :
  (Cxx.INT_MIN <= n <= Cxx.INT_MAX)%Z ->
  Cxx.int_of_double (inject_Z n) = Some n.
Proof.
  intros [Hlo Hhi]. unfold Cxx.int_of_double. rewrite trunc_inject.
  apply Z.leb_le in Hlo, Hhi. now rewrite Hlo, Hhi.
Qed.

(** ** The matrix inverse *)

Lemma inverse_defined (M : Matrix3d) :
  ~ determinant M == 0 -> exists Minv, inverse M = Some Minv.
Proof.
  intro Hdet. unfold inverse.
  destruct (Cxx.eqb (determinant M) 0) eqn:E.
  - apply eqb_eq in E. contradiction.
  - eexists. reflexivity.
Qed.

(** Whenever the model inverts a matrix, the result is a right inverse:
    [M * (M.inverse() * F)] is [F]. *)
Lemma inverse_mul_vec (M Minv : Matrix3d) (F : Vector3d) :
  inverse M = Some Minv -> veq (mul_vec M (mul_vec Minv F)) F.
Proof.
  unfold inverse. destruct (Cxx.eqb (determinant M) 0) eqn:E; [ discriminate | ].
  apply eqb_neq in E. intro H. injection H as <-.
  destruct M, F. unfold determinant, cofactor_3x3, coeff in E. simpl in E.
  unfold veq, mul_vec, cofactor_3x3, coeff, determinant, cofactor_3x3, coeff.
  simpl. repeat split; field; exact E.
Qed.

Lemma allocation_determinant (d : Q) : determinant (allocation d) == 2 * d.
Proof. unfold determinant, cofactor_3x3, coeff, allocation. simpl. ring. Qed.

Lemma thruster_forces_solve (d : Q) (F : Vector3d) :
  ~ d == 0 ->
  exists T, thruster_forces d F = Some T /\ veq (mul_vec (allocation d) T) F.
Proof.
  intro Hd. unfold thruster_forces.
  destruct (inverse_defined (allocation d)) as [Ainv HA].
  - rewrite allocation_determinant. lra.
  - rewrite HA. simpl. eexists. split; [ reflexivity | ].
    now apply inverse_mul_vec.
Qed.

(** The closed form of the solution. *)
Lemma thruster_forces_closed (d : Q) (F T : Vector3d) :
  thruster_forces d F = Some T ->
  vx T == (vx F - vz F / d) / 2 /\ vy T == vy F /\ vz T == (vx F + vz F / d) / 2.
Proof.
  unfold thruster_forces, inverse.
  destruct (Cxx.eqb (determinant (allocation d)) 0) eqn:E; [ discriminate | ].
  apply eqb_neq in E. rewrite allocation_determinant in E.
  assert (Hd : ~ d == 0) by lra.
  simpl. intro H. injection H as <-. destruct F.
  unfold mul_vec, determinant, cofactor_3x3, coeff, allocation. simpl.
  repeat split; field; repeat split; lra.
Qed.

(** ** Thrust curves *)

(** One of the three tests of a thrust curve always holds, so the local
    is assigned before it is returned. *)
Lemma computePctThrustGraupner230860_defined (fDes : Q) :
  exists pct, computePctThrustGraupner230860 fDes = Some pct.
Proof.
  unfold computePctThrustGraupner230860.
  destruct (Cxx.eqb fDes 0) eqn:E0; [ now eexists | ].
  destruct (Cxx.ltb fDes 0) eqn:E1; [ now eexists | ].
  destruct (Cxx.ltb 0 fDes) eqn:E2; [ now eexists | ].
  apply eqb_neq in E0. apply ltb_ge in E1, E2. exfalso. apply E0. lra.
Qed.

Lemma computePctThrustGraupner230357_defined (fDes : Q) :
  exists pct, computePctThrustGraupner230357 fDes = Some pct.
Proof.
  unfold computePctThrustGraupner230357.
  destruct (Cxx.eqb fDes 0) eqn:E0; [ now eexists | ].
  destruct (Cxx.ltb fDes 0) eqn:E1; [ now eexists | ].
  destruct (Cxx.ltb 0 fDes) eqn:E2; [ now eexists | ].
  apply eqb_neq in E0. apply ltb_ge in E1, E2. exfalso. apply E0. lra.
Qed.

(** The outcome of the three comparisons against zero, by the sign of the
    force. *)
Lemma sign_tests_pos (f : Q) :
  0 < f -> Cxx.ltb 0 f = true /\ Cxx.ltb f 0 = false /\ Cxx.eqb f 0 = false.
Proof.
  intro H. repeat split.
  - now apply ltb_lt.
  - apply ltb_ge. lra.
  - apply eqb_neq. lra.
Qed.

Lemma sign_tests_neg (f : Q) :
  f < 0 -> Cxx.ltb 0 f = false /\ Cxx.ltb f 0 = true /\ Cxx.eqb f 0 = false.
Proof.
  intro H. repeat split.
  - apply ltb_ge. lra.
  - now apply ltb_lt.
  - apply eqb_neq. lra.
Qed.

Lemma sign_tests_zero (f : Q) :
  f == 0 -> Cxx.ltb 0 f = false /\ Cxx.ltb f 0 = false /\ Cxx.eqb f 0 = true.
Proof.
  intro H. repeat split.
  - apply ltb_ge. lra.
  - apply ltb_ge. lra.
  - now apply eqb_eq.
Qed.

Ltac sign_tests H :=
  first [ apply sign_tests_pos in H
        | apply sign_tests_neg in H
        | apply sign_tests_zero in H ];
  destruct H as (-> & -> & ->).

(** ** Saturation *)

Section Saturation.

Variables p v s : Q.

Let max3 := Cxx.std_max (Cxx.std_max p v) s.
Let min3 := Cxx.std_min (Cxx.std_min p v) s.

Lemma max3_upper : p <= max3 /\ v <= max3 /\ s <= max3.
Proof.
  unfold max3.
  pose proof (std_max_le_l p v). pose proof (std_max_le_r p v).
  pose proof (std_max_le_l (Cxx.std_max p v) s).
  pose proof (std_max_le_r (Cxx.std_max p v) s).
  repeat split; lra.
Qed.

Lemma min3_lower : min3 <= p /\ min3 <= v /\ min3 <= s.
Proof.
  unfold min3.
  pose proof (std_min_le_l p v). pose proof (std_min_le_r p v).
  pose proof (std_min_le_l (Cxx.std_min p v) s).
  pose proof (std_min_le_r (Cxx.std_min p v) s).
  repeat split; lra.
Qed.

Lemma limitThrusterSaturation_unfold :
  limitThrusterSaturation p v s =
  if (Cxx.ltb min3 (-1) || Cxx.ltb 1 max3)%bool
  then 1 / Cxx.std_max (Cxx.std_abs min3) max3
  else 1.
Proof. reflexivity. Qed.

(** In the saturated branch the divisor exceeds 1 and bounds every
    fraction in absolute value. *)
Lemma saturated_divisor :
  (Cxx.ltb min3 (-1) || Cxx.ltb 1 max3)%bool = true ->
  let m := Cxx.std_max (Cxx.std_abs min3) max3 in
  1 < m /\ (forall x, min3 <= x <= max3 -> - m <= x <= m).
Proof.
  intros Hsat m.
  pose proof (std_max_le_l (Cxx.std_abs min3) max3) as Hl.
  pose proof (std_max_le_r (Cxx.std_abs min3) max3) as Hr.
  fold m in Hl, Hr. unfold Cxx.std_abs in Hl.
  assert (Habs : - min3 <= Qabs min3).
  { rewrite <- Qabs_opp. apply Qle_Qabs. }
  split.
  - apply orb_true_iff in Hsat. destruct Hsat as [H | H]; apply ltb_lt in H; lra.
  - intros x [Hlo Hhi]. lra.
Qed.

Lemma limitThrusterSaturation_pos : 0 < limitThrusterSaturation p v s.
Proof.
  rewrite limitThrusterSaturation_unfold.
  destruct (Cxx.ltb min3 (-1) || Cxx.ltb 1 max3)%bool eqn:Hsat; [ | lra ].
  destruct (saturated_divisor Hsat) as [Hm _].
  apply Qlt_shift_div_l; lra.
Qed.

Lemma limitThrusterSaturation_scales (x : Q) :
  min3 <= x <= max3 -> in_unit (x * limitThrusterSaturation p v s).
Proof.
  intro Hx. rewrite limitThrusterSaturation_unfold. unfold in_unit.
  destruct (Cxx.ltb min3 (-1) || Cxx.ltb 1 max3)%bool eqn:Hsat.
  - destruct (saturated_divisor Hsat) as [Hm Hb]. specialize (Hb x Hx).
    set (m := Cxx.std_max (Cxx.std_abs min3) max3) in *.
    assert (E : x * (1 / m) == x / m) by (field; lra).
    rewrite E. split.
    + apply Qle_shift_div_l; lra.
    + apply Qle_shift_div_r; lra.
  - apply orb_false_iff in Hsat. destruct Hsat as [H1 H2].
    apply ltb_ge in H1, H2. lra.
Qed.

Lemma limitThrusterSaturation_idle :
  in_unit p -> in_unit v -> in_unit s -> limitThrusterSaturation p v s = 1.
Proof.
  unfold in_unit. intros Hp Hv Hs. rewrite limitThrusterSaturation_unfold.
  assert (H1 : Cxx.ltb min3 (-1) = false).
  { apply ltb_ge. unfold min3. repeat apply std_min_glb; lra. }
  assert (H2 : Cxx.ltb 1 max3 = false).
  { apply ltb_ge. unfold max3. repeat apply std_max_lub; lra. }
  now rewrite H1, H2.
Qed.

End Saturation.

(** ** Pulse widths *)

Lemma pulse_width_value (x : Q) :
  in_unit x ->
  pulse_width x = Some (1500 + Cxx.round_Z (x * 500))%Z
  /\ in_servo_range (1500 + Cxx.round_Z (x * 500)).
Proof.
  unfold in_unit, in_servo_range. intros [Hlo Hhi].
  assert (Hr : (-500 <= Cxx.round_Z (x * 500) <= 500)%Z).
  { apply round_Z_bounds. unfold inject_Z. lra. }
  split; [ | lia ].
  unfold pulse_width, Cxx.round.
  rewrite <- (int_of_double_integer (1500 + Cxx.round_Z (x * 500))).
  - unfold Cxx.int_of_double.
    rewrite (trunc_comp (1500 + inject_Z (Cxx.round_Z (x * 500)))
                        (inject_Z (1500 + Cxx.round_Z (x * 500)))).
    + reflexivity.
    + rewrite inject_Z_plus. reflexivity.
  - unfold Cxx.INT_MIN, Cxx.INT_MAX. lia.
Qed.

Lemma esc_vals_in_range (Ppct_d Vpct_d Spct_d : Q) :
  exists cmds,
    esc_vals (Ppct_d, Vpct_d, Spct_d) = Some cmds
    /\ in_servo_range (motors0 cmds)
    /\ in_servo_range (motors1 cmds)
    /\ in_servo_range (motors2 cmds).
Proof.
  unfold esc_vals.
  destruct (max3_upper Ppct_d Vpct_d Spct_d) as (Hp1 & Hv1 & Hs1).
  destruct (min3_lower Ppct_d Vpct_d Spct_d) as (Hp0 & Hv0 & Hs0).
  destruct (pulse_width_value
              (Ppct_d * limitThrusterSaturation Ppct_d Vpct_d Spct_d)) as [-> HP].
  { apply limitThrusterSaturation_scales. split; assumption. }
  destruct (pulse_width_value
              (Vpct_d * limitThrusterSaturation Ppct_d Vpct_d Spct_d)) as [-> HV].
  { apply limitThrusterSaturation_scales. split; assumption. }
  destruct (pulse_width_value
              (Spct_d * limitThrusterSaturation Ppct_d Vpct_d Spct_d)) as [-> HS].
  { apply limitThrusterSaturation_scales. split; assumption. }
  simpl. eexists. split; [ reflexivity | ]. simpl. auto.
Qed.

(** ** Samples that cover the configured indices *)

Lemma vec_at_defined {A : Type} (v : list A) (i : Z) :
  index_ok v i -> exists a, Cxx.vec_at v i = Some a.
Proof.
  unfold index_ok, Cxx.vec_at. intros [Hlo Hhi].
  destruct (i <? 0)%Z eqn:E; [ apply Z.ltb_lt in E; lia | ].
  destruct (nth_error v (Z.to_nat i)) eqn:En; [ now eexists | ].
  apply nth_error_None in En. lia.
Qed.

Lemma vec_at_undefined {A : Type} (v : list A) (i : Z) :
  ~ index_ok v i -> Cxx.vec_at v i = None.
Proof.
  unfold index_ok, Cxx.vec_at. intro H.
  destruct (i <? 0)%Z eqn:E; [ reflexivity | ].
  apply Z.ltb_ge in E. apply nth_error_None. lia.
Qed.

Lemma same_config_refl (a : OpenROVTeleop) : same_config a a.
Proof. unfold same_config. repeat split. Qed.

Lemma same_config_trans (a b c : OpenROVTeleop) :
  same_config a b -> same_config b c -> same_config a c.
Proof. unfold same_config. intuition congruence. Qed.

Lemma joy_fits_same_config (a b : OpenROVTeleop) (joy : Joy) :
  same_config a b -> joy_fits a joy -> joy_fits b joy.
Proof.
  unfold same_config, joy_fits.
  intros (<- & <- & <- & <- & <- & _) H. exact H.
Qed.

(** ** The sections of [joyCallback] *)

Lemma desired_wrench_defined (self : OpenROVTeleop) (joy : Joy) :
  joy_fits self joy -> exists F, desired_wrench self joy = Some F.
Proof.
  intros (Hx & Hz & Hyaw & _). unfold desired_wrench.
  destruct (vec_at_defined _ _ Hx) as [ax ->].
  destruct (vec_at_defined _ _ Hz) as [az ->].
  destruct (vec_at_defined _ _ Hyaw) as [ayaw ->].
  simpl. now eexists.
Qed.

Lemma pct_thrust_defined (T : Vector3d) : exists pct, pct_thrust T = Some pct.
Proof.
  unfold pct_thrust.
  destruct (computePctThrustGraupner230860_defined (vx T)) as [P ->].
  destruct (computePctThrustGraupner230357_defined (vy T)) as [V ->].
  destruct (computePctThrustGraupner230860_defined (vz T)) as [S ->].
  simpl. now eexists.
Qed.

Lemma joy_thrusters_spec (self : OpenROVTeleop) (joy : Joy) :
  ~ d self == 0 -> joy_fits self joy ->
  exists cmds,
    joy_thrusters self joy = Some (set_motor_cmds self cmds)
    /\ in_servo_range (motors0 cmds)
    /\ in_servo_range (motors1 cmds)
    /\ in_servo_range (motors2 cmds).
Proof.
  intros Hd Hfit. unfold joy_thrusters.
  destruct (desired_wrench_defined self joy Hfit) as [F ->]. cbn [bind].
  destruct (thruster_forces_solve (d self) F Hd) as (T & -> & _). cbn [bind].
  destruct (pct_thrust_defined T) as [[[P V] S] ->]. cbn [bind].
  destruct (esc_vals_in_range P V S) as (cmds & -> & Hr). cbn [bind].
  exists cmds. split; [ reflexivity | exact Hr ].
Qed.

Lemma clamp_light_range (l : Q) : 0 <= clamp_light l <= 1.
Proof.
  unfold clamp_light. destruct (Cxx.ltb 1 l) eqn:E1.
  - change (if Cxx.ltb 1 0 then 0 else 1) with 1. lra.
  - apply ltb_ge in E1. destruct (Cxx.ltb l 0) eqn:E0.
    + lra.
    + apply ltb_ge in E0. lra.
Qed.

Lemma joy_lights_spec (self : OpenROVTeleop) (joy : Joy) :
  index_ok (axes joy) (lightsAdjButton self) ->
  exists a old out,
    Cxx.vec_at (axes joy) (lightsAdjButton self) = Some a
    /\ joy_lights self joy =
       Some (set_light self (clamp_light (lightVal self + a * (-0.1))) old, out).
Proof.
  intro Hi. unfold joy_lights.
  destruct (vec_at_defined _ _ Hi) as [a ->]. simpl.
  fold (clamp_light (lightVal self + a * (-0.1))).
  destruct (negb _); do 3 eexists; split; reflexivity.
Qed.

Lemma joy_lasers_spec (self : OpenROVTeleop) (joy : Joy) :
  index_ok (buttons joy) (laserToggleButton self) ->
  laserToggle self = oldLaserToggle self ->
  exists b,
    Cxx.vec_at (buttons joy) (laserToggleButton self) = Some b
    /\ joy_lasers self joy =
       Some (if (b =? 0)%Z then (self, [])
             else let t := if (oldLaserToggle self =? 0)%Z then 255%Z else 0%Z in
                  (set_laser self t t, [pub_laser_toggle t])).
Proof.
  intros Hi Heq. unfold joy_lasers.
  destruct (vec_at_defined _ _ Hi) as [b ->]. simpl.
  exists b. split; [ reflexivity | ].
  rewrite Heq, Z.eqb_refl. destruct (b =? 0)%Z; reflexivity.
Qed.

Lemma joy_lasers_defined (self : OpenROVTeleop) (joy : Joy) :
  index_ok (buttons joy) (laserToggleButton self) ->
  exists t old out,
    joy_lasers self joy = Some (set_laser self t old, out)
    /\ (laserToggle self = oldLaserToggle self -> t = old).
Proof.
  intro Hi. unfold joy_lasers.
  destruct (vec_at_defined _ _ Hi) as [b ->]. simpl.
  assert (Hself : self = set_laser self (laserToggle self) (oldLaserToggle self))
    by (destruct self; reflexivity).
  destruct (negb (b =? 0)%Z).
  - destruct (laserToggle self =? oldLaserToggle self)%Z.
    + do 3 eexists. split; [ reflexivity | reflexivity ].
    + exists (laserToggle self), (oldLaserToggle self), []. 
      split; [ now rewrite <- Hself | trivial ].
  - exists (laserToggle self), (oldLaserToggle self), []. 
    split; [ now rewrite <- Hself | trivial ].
Qed.

Lemma laser_toggles_app (out1 out2 : list Published) :
  laser_toggles (out1 ++ out2) = (laser_toggles out1 + laser_toggles out2)%nat.
Proof.
  induction out1 as [ | [ m | v | v ] out1 IH ]; simpl; auto.
Qed.

Lemma joy_lights_no_laser (self self' : OpenROVTeleop) (joy : Joy) (out : list Published) :
  joy_lights self joy = Some (self', out) -> laser_toggles out = 0%nat.
Proof.
  unfold joy_lights.
  destruct (Cxx.vec_at (axes joy) (lightsAdjButton self)); [ | discriminate ].
  cbn [bind]. destruct (negb _); intro H; injection H as <- <-; reflexivity.
Qed.

(** What one [joyCallback] establishes, for a sample that covers the
    configured indices. *)
Lemma joyCallback_spec (self : OpenROVTeleop) (joy : Joy) :
  ~ d self == 0 -> joy_fits self joy ->
  exists self' out,
    joyCallback self joy = Some (self', out)
    /\ same_config self self'
    /\ (in_servo_range (motors0 (motor_cmds self'))
        /\ in_servo_range (motors1 (motor_cmds self'))
        /\ in_servo_range (motors2 (motor_cmds self')))
    /\ 0 <= lightVal self' <= 1
    /\ (laserToggle self = oldLaserToggle self ->
        laserToggle self' = oldLaserToggle self'
        /\ exists b, Cxx.vec_at (buttons joy) (laserToggleButton self) = Some b
                     /\ laser_toggles out = if (b =? 0)%Z then 0%nat else 1%nat).
Proof.
  intros Hd Hfit. unfold joyCallback.
  destruct (joy_thrusters_spec self joy Hd Hfit) as (cmds & -> & Hcmds).
  cbn [bind]. destruct Hfit as (_ & _ & _ & Hlight & Hlaser).
  set (self1 := set_motor_cmds self cmds).
  destruct (joy_lights_spec self1 joy Hlight) as (a & old & lights & _ & Hl).
  pose proof (joy_lights_no_laser _ _ _ _ Hl) as Hnone.
  rewrite Hl. cbn [bind].
  set (self2 := set_light self1 _ old) in *.
  destruct (joy_lasers_defined self2 joy Hlaser) as (t & old' & lasers & Hs & Ht).
  rewrite Hs. cbn [bind].
  do 2 eexists. split; [ reflexivity | ].
  split; [ unfold same_config; repeat split | ].
  split; [ exact Hcmds | ].
  split; [ apply clamp_light_range | ].
  intro Heq. split; [ exact (Ht Heq) | ].
  destruct (joy_lasers_spec self2 joy Hlaser Heq) as (b & Hb & Hs').
  exists b. split; [ exact Hb | ].
  rewrite Hs in Hs'. apply (f_equal (option_map snd)) in Hs'.
  rewrite laser_toggles_app, Hnone.
  destruct (b =? 0)%Z; simpl in Hs'; injection Hs' as ->; reflexivity.
Qed.

(** ** The event loop *)

Lemma spin_app (events1 events2 : list Event) :
  forall self,
    spin self (events1 ++ events2) =
    ('(self1, out1) <- spin self events1 ;;
     '(self2, out2) <- spin self1 events2 ;;
     Some (self2, out1 ++ out2)).
Proof.
  induction events1 as [ | e events1 IH ]; intro self; simpl.
  - destruct (spin self events2) as [ [self2 out2] | ]; reflexivity.
  - destruct (dispatch self e) as [ [self1 out1] | ]; [ | reflexivity ].
    cbn [bind]. rewrite IH.
    destruct (spin self1 events1) as [ [self1' out1'] | ]; [ | reflexivity ].
    cbn [bind].
    destruct (spin self1' events2) as [ [self2 out2] | ]; [ | reflexivity ].
    cbn [bind]. now rewrite app_assoc.
Qed.

(** The loop runs to the end on events that fit, keeps the configuration,
    and keeps the light level in range and the two laser members equal. *)
Lemma spin_spec (events : list Event) :
  forall self,
    ~ d self == 0 ->
    Forall (event_fits self) events ->
    exists self' out,
      spin self events = Some (self', out)
      /\ same_config self self'
      /\ (0 <= lightVal self <= 1 -> 0 <= lightVal self' <= 1)
      /\ (laserToggle self = oldLaserToggle self ->
          laserToggle self' = oldLaserToggle self').
Proof.
  induction events as [ | e events IH ]; intros self Hd Hfit.
  - exists self, []. split; [ reflexivity | ].
    split; [ apply same_config_refl | ]. split; trivial.
  - inversion Hfit as [ | ? ? He Hrest ]; subst.
    assert (Hstep : exists self1 out1,
               dispatch self e = Some (self1, out1)
               /\ same_config self self1
               /\ (0 <= lightVal self <= 1 -> 0 <= lightVal self1 <= 1)
               /\ (laserToggle self = oldLaserToggle self ->
                   laserToggle self1 = oldLaserToggle self1)).
    { destruct e as [ joy | ]; simpl.
      - destruct (joyCallback_spec self joy Hd He)
          as (self1 & out1 & Hrun & Hcfg & _ & Hl & Hlaser).
        exists self1, out1.
        split; [ exact Hrun | ]. split; [ exact Hcfg | ].
        split; [ intros _; exact Hl | ].
        intro Heq. apply (Hlaser Heq).
      - exists self, [pub_motortarget (motor_cmds self)].
        split; [ reflexivity | ]. split; [ apply same_config_refl | ].
        split; trivial. }
    destruct Hstep as (self1 & out1 & Hrun & Hcfg & Hl & Hlaser).
    destruct (IH self1) as (self' & out & Hrun' & Hcfg' & Hl' & Hlaser').
    + destruct Hcfg as (_ & _ & _ & _ & _ & _ & _ & _ & _ & <-). exact Hd.
    + eapply Forall_impl; [ | exact Hrest ].
      intros [ joy | ]; simpl; [ | trivial ].
      now apply joy_fits_same_config.
    + exists self', (out1 ++ out). simpl. rewrite Hrun. cbn [bind].
      rewrite Hrun'. cbn [bind]. split; [ reflexivity | ].
      split; [ exact (same_config_trans _ _ _ Hcfg Hcfg') | ].
      split; auto.
Qed.

(** ** The allocation solves the wrench *)

(** C1, in exact arithmetic.  For every body wrench [(fx, fz, mz)] of
    finite components, the thruster force vector [T = A.inverse() * F],
    with the allocation matrix [A] of the offset [d = 0.045], exists and
    satisfies [A * T == (fx, fz, mz)]: without rounding the round trip
    through the matrix is an equality, whatever the parameters of the
    node.  In the double code an infinite component breaks this
    ([allocation_round_trip_fails_in_doubles]). *)
Theorem allocation_round_trip (ps : Params) (fx fz mz : Q) :
  let self := OpenROVTeleop_new ps in
  d self = 0.045
  /\ exists T,
       thruster_forces (d self) (Vector3 fx fz mz) = Some T
       /\ veq (mul_vec (allocation (d self)) T) (Vector3 fx fz mz).
Proof.
  intro self. split; [ reflexivity | ].
  apply thruster_forces_solve. simpl. lra.
Qed.

(** ** The saturation scale *)

(** ** The thrust curves *)

(** C4. For every force [f], the port/starboard curve returns [f / 14.7]
    when [f > 0], [f / 11] when [f < 0] and 0 when [f == 0]; the
    vertical curve returns [f / 14.7] for every nonzero [f] and 0 when
    [f == 0]. *)
Theorem thrust_curves (f : Q) :
  (0 < f -> computePctThrustGraupner230860 f = Some (f / 14.7))
  /\ (f < 0 -> computePctThrustGraupner230860 f = Some (f / 11))
  /\ (f == 0 -> computePctThrustGraupner230860 f = Some 0)
  /\ (~ f == 0 -> computePctThrustGraupner230357 f = Some (f / 14.7))
  /\ (f == 0 -> computePctThrustGraupner230357 f = Some 0).
Proof.
  unfold computePctThrustGraupner230860, computePctThrustGraupner230357.
  repeat split; intro H.
  - sign_tests H. reflexivity.
  - sign_tests H. reflexivity.
  - sign_tests H. reflexivity.
  - destruct (Q_dec f 0) as [ [Hneg | Hpos] | Hz ]; [ | | contradiction ].
    + sign_tests Hneg. reflexivity.
    + sign_tests Hpos. reflexivity.
  - sign_tests H. reflexivity.
Qed.

(** ** Scenario B *)

(** C5. With the default parameters (forward gain 4) and the sample whose
    forward axis is 1.0 and whose other axes are zero, the wrench is
    (4, 0, 0), the thruster forces are [T_port = T_stbd = 2] and
    [T_vert = 0], the fractions are (2/14.7, 0, 2/14.7), the scale is 1
    and the stored motor command is (1568, 1500, 1568). *)
Theorem scenario_B_pipeline :
  let self := OpenROVTeleop_new no_params in
  exists F T P V S self' out,
    x_gain self = 4 /\ d self = 0.045
    /\ desired_wrench self scenario_B = Some F /\ veq F (Vector3 4 0 0)
    /\ thruster_forces (d self) F = Some T /\ veq T (Vector3 2 0 2)
    /\ pct_thrust T = Some (P, V, S)
    /\ P == 2 / 14.7 /\ V == 0 /\ S == 2 / 14.7
    /\ limitThrusterSaturation P V S = 1
    /\ joyCallback self scenario_B = Some (self', out)
    /\ motor_cmds self' = {| motors0 := 1568; motors1 := 1500; motors2 := 1568 |}.
Proof.
  intro self.
  destruct (desired_wrench self scenario_B) as [F | ] eqn:HF;
    [ | vm_compute in HF; discriminate ].
  destruct (thruster_forces (d self) F) as [T | ] eqn:HT;
    [ | vm_compute in HF; injection HF as <-; vm_compute in HT; discriminate ].
  destruct (pct_thrust T) as [ [ [P V] S ] | ] eqn:Hpct;
    [ | vm_compute in HF; injection HF as <-;
        vm_compute in HT; injection HT as <-;
        vm_compute in Hpct; discriminate ].
  destruct (joyCallback self scenario_B) as [ [self' out] | ] eqn:Hrun;
    [ | vm_compute in Hrun; discriminate ].
  exists F, T, P, V, S, self', out.
  vm_compute in HF. injection HF as <-.
  vm_compute in HT. injection HT as <-.
  vm_compute in Hpct. injection Hpct as <- <- <-.
  vm_compute in Hrun. injection Hrun as <- <-.
  repeat split; reflexivity.
Qed.

(** Scenario A of the spec, axes at rest: the neutral command. *)
Example scenario_A_neutral :
  option_map (fun r => motor_cmds (fst r))
    (joyCallback (OpenROVTeleop_new no_params) laser_held)
  = Some {| motors0 := 1500; motors1 := 1500; motors2 := 1500 |}.
Proof. vm_compute. reflexivity. Qed.

(** Scenario C of the spec: the fractions (1.5, 0.2, -1.3) are scaled by
    1/1.5. *)
Example scenario_C_scale :
  limitThrusterSaturation 1.5 0.2 (-1.3) == 1 / 1.5
  /\ esc_vals (1.5, 0.2, -1.3)
     = Some {| motors0 := 2000; motors1 := 1567; motors2 := 1067 |}.
Proof. split; [ vm_compute | ]; reflexivity. Qed.

(** ** The motor command *)

(** C6, in exact arithmetic.  For every sample of finite axis values
    that covers the configured indices, the call returns and each of the
    three pulse widths stored in the motor command lies in
    [1000, 2000].  No clamp is applied: each width is
    [1500 + round(x * 500)] for a fraction [x] that the saturation scale
    has brought into [-1, 1] ([pulse_width_value],
    [limitThrusterSaturation_scales]).  In the double code an infinite
    axis value breaks this ([infinite_axis_no_valid_command]). *)
Theorem motor_command_in_servo_range (self : OpenROVTeleop) (joy : Joy) :
  ~ d self == 0 -> joy_fits self joy ->
  exists self' out,
    joyCallback self joy = Some (self', out)
    /\ in_servo_range (motors0 (motor_cmds self'))
    /\ in_servo_range (motors1 (motor_cmds self'))
    /\ in_servo_range (motors2 (motor_cmds self')).
Proof.
  intros Hd Hfit.
  destruct (joyCallback_spec self joy Hd Hfit) as (self' & out & Hrun & _ & Hr & _).
  exists self', out. split; assumption.
Qed.

(** C7. The encoding [x |-> 1500 + round(x * 500)] is non-decreasing on
    [-1, 1], where it is defined, and sends 0 to exactly 1500. *)
Theorem pulse_width_monotone (x y : Q) :
  in_unit x -> in_unit y -> x <= y ->
  (exists a b, pulse_width x = Some a /\ pulse_width y = Some b /\ (a <= b)%Z)
  /\ pulse_width 0 = Some 1500%Z.
Proof.
  intros Hx Hy Hxy. split; [ | reflexivity ].
  destruct (pulse_width_value x Hx) as [-> _].
  destruct (pulse_width_value y Hy) as [-> _].
  do 2 eexists. split; [ reflexivity | ]. split; [ reflexivity | ].
  apply Z.add_le_mono_l, round_Z_mono. lra.
Qed.

(** ** The light level *)

Lemma Forall_prefix {A : Type} (P : A -> Prop) (n : nat) :
  forall l, Forall P l -> Forall P (firstn n l).
Proof.
  induction n as [ | n IH ]; intros l H; simpl.
  - constructor.
  - destruct H as [ | a l Ha Hl ]; constructor; auto.
Qed.

(** ** The laser *)

(** C10. From the initial state, [laserToggle.data == oldLaserToggle]
    holds after every [joyCallback]: every prefix of a run of the node
    ends with the two members equal. *)
Theorem laser_members_stay_equal (ps : Params) (events : list Event) (n : nat) :
  Forall (event_fits (OpenROVTeleop_new ps)) events ->
  exists self out,
    spin (OpenROVTeleop_new ps) (firstn n events) = Some (self, out)
    /\ laserToggle self = oldLaserToggle self.
Proof.
  intro Hfit.
  destruct (spin_spec (firstn n events) (OpenROVTeleop_new ps))
    as (self & out & Hrun & _ & _ & Hlaser).
  - simpl. lra.
  - now apply Forall_prefix.
  - exists self, out. split; [ exact Hrun | ]. now apply Hlaser.
Qed.

(** While the button reads pressed, every sample toggles: the guard
    [laserToggle.data == oldLaserToggle] holds at each of them. *)
Lemma pressed_samples_all_toggle (events : list Event) :
  forall self,
    ~ d self == 0 ->
    laserToggle self = oldLaserToggle self ->
    Forall (event_fits self) events ->
    Forall (laser_pressed self) events ->
    exists self' out,
      spin self events = Some (self', out)
      /\ laser_toggles out = length events.
Proof.
  induction events as [ | e events IH ]; intros self Hd Heq Hfit Hpress.
  - exists self, []. split; reflexivity.
  - inversion Hfit as [ | ? ? He Hrest ]; subst.
    inversion Hpress as [ | ? ? Hp Hprest ]; subst.
    destruct e as [ joy | ]; [ | contradiction ].
    simpl in He, Hp. destruct Hp as (b & Hb & Hb0).
    destruct (joyCallback_spec self joy Hd He)
      as (self1 & out1 & Hrun & Hcfg & _ & _ & Hlaser).
    destruct (Hlaser Heq) as (Heq1 & b' & Hb' & Hcount).
    rewrite Hb in Hb'. injection Hb' as <-.
    apply Z.eqb_neq in Hb0. rewrite Hb0 in Hcount.
    destruct (IH self1) as (self' & out & Hrun' & Hcount').
    + destruct Hcfg as (_ & _ & _ & _ & _ & _ & _ & _ & _ & <-). exact Hd.
    + exact Heq1.
    + eapply Forall_impl; [ | exact Hrest ].
      intros [ joy' | ]; simpl; [ | trivial ].
      now apply joy_fits_same_config.
    + eapply Forall_impl; [ | exact Hprest ].
      intros [ joy' | ]; simpl; [ | trivial ].
      destruct Hcfg as (_ & _ & _ & _ & <- & _). trivial.
    + exists self', (out1 ++ out). simpl. rewrite Hrun. cbn [bind].
      rewrite Hrun'. cbn [bind]. split; [ reflexivity | ].
      rewrite laser_toggles_app, Hcount, Hcount'. reflexivity.
Qed.

(** C3.  What the code does with one continuous press: the button held
    over [n] consecutive samples makes the node publish [n] toggles, one
    per sample, not one per press. *)
Theorem held_button_toggles_every_sample (n : nat) :
  exists self out,
    spin (OpenROVTeleop_new no_params) (repeat (JoyEvent laser_held) n)
    = Some (self, out)
    /\ laser_toggles out = n.
Proof.
  destruct (pressed_samples_all_toggle (repeat (JoyEvent laser_held) n)
              (OpenROVTeleop_new no_params))
    as (self & out & Hrun & Hcount).
  - simpl. lra.
  - reflexivity.
  - apply Forall_forall. intros e He. apply repeat_spec in He. subst e.
    unfold event_fits, joy_fits, index_ok. simpl. lia.
  - apply Forall_forall. intros e He. apply repeat_spec in He. subst e.
    exists 1%Z. split; [ reflexivity | discriminate ].
  - exists self, out. rewrite repeat_length in Hcount. now split.
Qed.

(** The run of C3 on two samples of one press, in full: the laser goes
    on at the first sample and off again at the second. *)
Example held_button_two_samples :
  option_map snd
    (spin (OpenROVTeleop_new no_params) [JoyEvent laser_held; JoyEvent laser_held])
  = Some [pub_laser_toggle 255; pub_laser_toggle 0].
Proof. vm_compute. reflexivity. Qed.

(** ** Samples that are too short *)

Lemma joy_thrusters_result (self self1 : OpenROVTeleop) (joy : Joy) :
  joy_thrusters self joy = Some self1 ->
  exists F cmds, desired_wrench self joy = Some F
                 /\ self1 = set_motor_cmds self cmds.
Proof.
  unfold joy_thrusters.
  destruct (desired_wrench self joy) as [F | ]; [ | discriminate ]. cbn [bind].
  destruct (thruster_forces (d self) F) as [T | ]; [ | discriminate ]. cbn [bind].
  destruct (pct_thrust T) as [pct | ]; [ | discriminate ]. cbn [bind].
  destruct (esc_vals pct) as [cmds | ]; [ | discriminate ]. cbn [bind].
  intro H. injection H as <-. now exists F, cmds.
Qed.

Lemma desired_wrench_short (self : OpenROVTeleop) (joy : Joy) :
  ~ index_ok (axes joy) (x_controllerAxis self)
  \/ ~ index_ok (axes joy) (z_controllerAxis self)
  \/ ~ index_ok (axes joy) (yaw_controllerAxis self) ->
  desired_wrench self joy = None.
Proof.
  unfold desired_wrench. intros [H | [H | H]];
    apply vec_at_undefined in H; rewrite H.
  - reflexivity.
  - destruct (Cxx.vec_at (axes joy) (x_controllerAxis self)); reflexivity.
  - destruct (Cxx.vec_at (axes joy) (x_controllerAxis self)); [ | reflexivity ].
    destruct (Cxx.vec_at (axes joy) (z_controllerAxis self)); reflexivity.
Qed.

(** C9, as the code has it.  [joyCallback] indexes the axis sequence
    without a bounds check: for a sample whose axis sequence is too short
    for one of the configured axis indices the call has no defined
    result; no error is reported and nothing protects the stored
    command. *)
Theorem short_axes_undefined (self : OpenROVTeleop) (joy : Joy) :
  axes_short self joy -> joyCallback self joy = None.
Proof.
  unfold axes_short, joyCallback. intro Hshort.
  destruct (joy_thrusters self joy) as [self1 | ] eqn:Hthr; [ | reflexivity ].
  cbn [bind].
  destruct (joy_thrusters_result _ _ _ Hthr) as (F & cmds & HF & ->).
  assert (Hlight : ~ index_ok (axes joy) (lightsAdjButton self)).
  { destruct Hshort as [H | [H | [H | H]]]; [ | | | exact H ];
      rewrite desired_wrench_short in HF; auto; discriminate. }
  unfold joy_lights.
  change (lightsAdjButton (set_motor_cmds self cmds)) with (lightsAdjButton self).
  rewrite (vec_at_undefined _ _ Hlight). reflexivity.
Qed.

(** C9, as stated, fails: the sample [two_axes] is too short for the
    default vertical axis, and the call does not come back with the
    sample turned down and the command kept. *)
Lemma short_axes_not_suppressed :
  axes_short (OpenROVTeleop_new no_params) two_axes
  /\ ~ sample_suppressed (OpenROVTeleop_new no_params) two_axes.
Proof.
  split.
  - right. left. unfold index_ok. simpl. lia.
  - intros (self' & Hrun & _). vm_compute in Hrun. discriminate.
Qed.

(** ** The theorems at concrete inputs *)

(** C6 at full stick with a forward gain of 40: the fractions 20/14.7
    saturate, and the stored widths are still in range. *)
Lemma motor_command_in_servo_range_witness :
  (~ d (OpenROVTeleop_new strong_gain) == 0
   /\ joy_fits (OpenROVTeleop_new strong_gain) scenario_B)
  /\ exists self' out,
       joyCallback (OpenROVTeleop_new strong_gain) scenario_B = Some (self', out)
       /\ in_servo_range (motors0 (motor_cmds self'))
       /\ in_servo_range (motors1 (motor_cmds self'))
       /\ in_servo_range (motors2 (motor_cmds self')).
Proof.
  assert (Hd : ~ d (OpenROVTeleop_new strong_gain) == 0) by (simpl; lra).
  assert (Hfit : joy_fits (OpenROVTeleop_new strong_gain) scenario_B)
    by (unfold joy_fits, index_ok; simpl; lia).
  split; [ split; assumption | ].
  exact (motor_command_in_servo_range
           (OpenROVTeleop_new strong_gain) scenario_B Hd Hfit).
Defined.

Example strong_gain_saturates :
  option_map (fun r => motor_cmds (fst r))
    (joyCallback (OpenROVTeleop_new strong_gain) scenario_B)
  = Some {| motors0 := 2000; motors1 := 1500; motors2 := 2000 |}.
Proof. vm_compute. reflexivity. Qed.

(** C7 at the fractions -1/3 and 1/2. *)
Lemma pulse_width_monotone_witness :
  (in_unit (-1 # 3) /\ in_unit (1 # 2) /\ (-1 # 3) <= (1 # 2))
  /\ (exists a b, pulse_width (-1 # 3) = Some a /\ pulse_width (1 # 2) = Some b
                  /\ (a <= b)%Z)
  /\ pulse_width 0 = Some 1500%Z.
Proof.
  assert (Hx : in_unit (-1 # 3)) by (unfold in_unit; lra).
  assert (Hy : in_unit (1 # 2)) by (unfold in_unit; lra).
  assert (Hxy : (-1 # 3) <= (1 # 2)) by lra.
  split; [ repeat split; assumption | ].
  exact (pulse_width_monotone (-1 # 3) (1 # 2) Hx Hy Hxy).
Defined.

Example pulse_width_values :
  pulse_width (-1) = Some 1000%Z /\ pulse_width (-1 # 3) = Some 1333%Z
  /\ pulse_width (1 # 2) = Some 1750%Z /\ pulse_width 1 = Some 2000%Z
  /\ pulse_width (1 # 1000) = Some 1501%Z /\ pulse_width (-1 # 1000) = Some 1499%Z.
Proof. vm_compute. repeat split; reflexivity. Qed.

Example light_up_twelve_times :
  option_map (fun r => lightVal (fst r))
    (spin (OpenROVTeleop_new no_params) (repeat (JoyEvent light_up) 12))
  = Some 1.
Proof. vm_compute. reflexivity. Qed.

(** C10 on a press, a timer tick and a sample at rest. *)
Lemma laser_members_stay_equal_witness :
  Forall (event_fits (OpenROVTeleop_new no_params))
         [JoyEvent laser_held; TimerEvent; JoyEvent scenario_B]
  /\ exists self out,
       spin (OpenROVTeleop_new no_params)
            (firstn 2 [JoyEvent laser_held; TimerEvent; JoyEvent scenario_B])
       = Some (self, out)
       /\ laserToggle self = oldLaserToggle self.
Proof.
  assert (Hfit : Forall (event_fits (OpenROVTeleop_new no_params))
                        [JoyEvent laser_held; TimerEvent; JoyEvent scenario_B]).
  { simpl. repeat constructor; unfold index_ok; simpl; lia. }
  split; [ exact Hfit | ].
  exact (laser_members_stay_equal no_params
           [JoyEvent laser_held; TimerEvent; JoyEvent scenario_B] 2 Hfit).
Defined.

(** C9 as the code has it, on the sample with two axes. *)
Lemma short_axes_undefined_witness :
  axes_short (OpenROVTeleop_new no_params) two_axes
  /\ joyCallback (OpenROVTeleop_new no_params) two_axes = None.
Proof.
  assert (Hshort : axes_short (OpenROVTeleop_new no_params) two_axes).
  { right. left. unfold index_ok. simpl. lia. }
  split; [ exact Hshort | ].
  exact (short_axes_undefined (OpenROVTeleop_new no_params) two_axes Hshort).
Defined.

(** * Further properties of the code *)

(** ** Numbers that are equal give equal results *)

Lemma ltb_comp (a a' b b' : Q) : a == a' -> b == b' -> Cxx.ltb a b = Cxx.ltb a' b'.
Proof. intros Ha Hb. unfold Cxx.ltb. now rewrite Ha, Hb. Qed.

Lemma eqb_comp (a a' b b' : Q) : a == a' -> b == b' -> Cxx.eqb a b = Cxx.eqb a' b'.
Proof. intros Ha Hb. unfold Cxx.eqb. now rewrite Ha, Hb. Qed.

Lemma round_Z_comp (x y : Q) : x == y -> Cxx.round_Z x = Cxx.round_Z y.
Proof.
  intro H. unfold Cxx.round_Z.
  rewrite (ltb_comp x y 0 0 H (Qeq_refl 0)).
  destruct (Cxx.ltb y 0).
  - apply Qceiling_comp. now rewrite H.
  - apply Qfloor_comp. now rewrite H.
Qed.

Lemma pulse_width_comp (x y : Q) : x == y -> pulse_width x = pulse_width y.
Proof.
  intro H. unfold pulse_width, Cxx.round, Cxx.int_of_double.
  assert (Hr : Cxx.round_Z (x * 500) = Cxx.round_Z (y * 500))
    by (apply round_Z_comp; now rewrite H).
  now rewrite Hr.
Qed.

(** ** The thrust curves, case by case *)

Lemma curve860_pos (f : Q) :
  0 < f -> computePctThrustGraupner230860 f = Some (f / 14.7).
Proof.
  intro H. unfold computePctThrustGraupner230860. sign_tests H. reflexivity.
Qed.

Lemma curve860_neg (f : Q) :
  f < 0 -> computePctThrustGraupner230860 f = Some (f / 11).
Proof.
  intro H. unfold computePctThrustGraupner230860. sign_tests H. reflexivity.
Qed.

Lemma curve860_zero (f : Q) :
  f == 0 -> computePctThrustGraupner230860 f = Some 0.
Proof.
  intro H. unfold computePctThrustGraupner230860. sign_tests H. reflexivity.
Qed.

Lemma curve357_pos (f : Q) :
  0 < f -> computePctThrustGraupner230357 f = Some (f / 14.7).
Proof.
  intro H. unfold computePctThrustGraupner230357. sign_tests H. reflexivity.
Qed.

Lemma curve357_neg (f : Q) :
  f < 0 -> computePctThrustGraupner230357 f = Some (f / 14.7).
Proof.
  intro H. unfold computePctThrustGraupner230357. sign_tests H. reflexivity.
Qed.

Lemma curve357_zero (f : Q) :
  f == 0 -> computePctThrustGraupner230357 f = Some 0.
Proof.
  intro H. unfold computePctThrustGraupner230357. sign_tests H. reflexivity.
Qed.

Lemma div_14_7 (f : Q) : f / 14.7 == f * (10 # 147).
Proof. field. Qed.

Lemma div_11 (f : Q) : f / 11 == f * (1 # 11).
Proof. field. Qed.

(** The value of a curve, with the sign of the force it was given, as a
    linear expression. *)
Lemma curve860_value (f : Q) :
  exists pct,
    computePctThrustGraupner230860 f = Some pct
    /\ (0 < f -> pct == f * (10 # 147)) /\ (f < 0 -> pct == f * (1 # 11))
    /\ (f == 0 -> pct == 0).
Proof.
  destruct (Q_dec f 0) as [ [Hneg | Hpos] | Hz ].
  - rewrite (curve860_neg f Hneg). eexists. split; [ reflexivity | ].
    rewrite div_11. repeat split; intro; lra.
  - rewrite (curve860_pos f Hpos). eexists. split; [ reflexivity | ].
    rewrite div_14_7. repeat split; intro; lra.
  - rewrite (curve860_zero f Hz). eexists. split; [ reflexivity | ].
    repeat split; intro; lra.
Qed.

Lemma curve357_value (f : Q) :
  exists pct,
    computePctThrustGraupner230357 f = Some pct /\ pct == f * (10 # 147).
Proof.
  destruct (Q_dec f 0) as [ [Hneg | Hpos] | Hz ].
  - rewrite (curve357_neg f Hneg). eexists. split; [ reflexivity | apply div_14_7 ].
  - rewrite (curve357_pos f Hpos). eexists. split; [ reflexivity | apply div_14_7 ].
  - rewrite (curve357_zero f Hz). eexists. split; [ reflexivity | lra ].
Qed.

(** X2. The vertical curve is odd: reversing the force reverses the
    fraction.  The port/starboard curve is not: for a forward force [f]
    the reverse force [-f] asks for 14.7/11 times the fraction, with the
    opposite sign. *)
Theorem thrust_curves_symmetry (f : Q) :
  (exists a b, computePctThrustGraupner230357 f = Some a
               /\ computePctThrustGraupner230357 (- f) = Some b /\ b == - a)
  /\ (0 < f ->
      exists a b, computePctThrustGraupner230860 f = Some a
                  /\ computePctThrustGraupner230860 (- f) = Some b
                  /\ b == - (14.7 / 11) * a /\ a < - b).
Proof.
  split.
  - destruct (curve357_value f) as (a & -> & Ha).
    destruct (curve357_value (- f)) as (b & -> & Hb).
    exists a, b. split; [ reflexivity | ]. split; [ reflexivity | ]. lra.
  - intro Hf. rewrite (curve860_pos f Hf).
    assert (Hn : - f < 0) by lra. rewrite (curve860_neg (- f) Hn).
    do 2 eexists. split; [ reflexivity | ]. split; [ reflexivity | ].
    split; [ field | rewrite div_14_7, div_11; lra ].
Qed.

(** ** The saturation scale is tight *)

Lemma std_max_cases (a b : Q) : Cxx.std_max a b = a \/ Cxx.std_max a b = b.
Proof. unfold Cxx.std_max. destruct (Cxx.ltb a b); auto. Qed.

Lemma std_min_cases (a b : Q) : Cxx.std_min a b = a \/ Cxx.std_min a b = b.
Proof. unfold Cxx.std_min. destruct (Cxx.ltb b a); auto. Qed.

Lemma unsaturated_in_unit (p v s : Q) :
  (Cxx.ltb (Cxx.std_min (Cxx.std_min p v) s) (-1)
   || Cxx.ltb 1 (Cxx.std_max (Cxx.std_max p v) s))%bool = false ->
  in_unit p /\ in_unit v /\ in_unit s.
Proof.
  intro H. apply orb_false_iff in H. destruct H as [H0 H1].
  apply ltb_ge in H0, H1.
  destruct (max3_upper p v s) as (Hp1 & Hv1 & Hs1).
  destruct (min3_lower p v s) as (Hp0 & Hv0 & Hs0).
  unfold in_unit. repeat split; lra.
Qed.

(** In the saturated branch one of the three fractions is scaled to
    exactly 1 or -1. *)
Lemma saturated_tight (p v s : Q) :
  (Cxx.ltb (Cxx.std_min (Cxx.std_min p v) s) (-1)
   || Cxx.ltb 1 (Cxx.std_max (Cxx.std_max p v) s))%bool = true ->
  let scale := limitThrusterSaturation p v s in
  scale < 1
  /\ exists x, (x = p \/ x = v \/ x = s)
               /\ (x * scale == 1 \/ x * scale == -1).
Proof.
  intros Hsat scale. unfold scale.
  rewrite limitThrusterSaturation_unfold, Hsat.
  destruct (saturated_divisor p v s Hsat) as [Hm _].
  set (max3 := Cxx.std_max (Cxx.std_max p v) s) in *.
  set (min3 := Cxx.std_min (Cxx.std_min p v) s) in *.
  set (m := Cxx.std_max (Cxx.std_abs min3) max3) in *.
  split.
  - apply Qlt_shift_div_r; lra.
  - destruct (std_max_cases (Cxx.std_abs min3) max3) as [E | E]; fold m in E.
    + exists min3. split.
      * unfold min3.
        destruct (std_min_cases (Cxx.std_min p v) s) as [-> | ->]; auto.
        destruct (std_min_cases p v) as [-> | ->]; auto.
      * unfold Cxx.std_abs in E.
        destruct (Qlt_le_dec min3 0) as [Hneg | Hpos].
        -- right. assert (Ha : Qabs min3 == - min3) by (apply Qabs_neg; lra).
           rewrite E in Hm. rewrite E. rewrite Ha in *. field. lra.
        -- left. assert (Ha : Qabs min3 == min3) by (now apply Qabs_pos).
           rewrite E in Hm. rewrite E. rewrite Ha in *. field. lra.
    + exists max3. split.
      * unfold max3.
        destruct (std_max_cases (Cxx.std_max p v) s) as [-> | ->]; auto.
        destruct (std_max_cases p v) as [-> | ->]; auto.
      * left. rewrite E in Hm. rewrite E. field. lra.
Qed.

(** X3, in exact arithmetic.  For finite fractions and without
    rounding, the scale of [limitThrusterSaturation] is in (0, 1], and it
    is as large as the range allows: either it is 1 (nothing to scale),
    or it is below 1 and one of the three scaled fractions is exactly 1
    or -1. *)
Theorem saturation_scale_tight (p v s : Q) :
  let scale := limitThrusterSaturation p v s in
  0 < scale <= 1
  /\ ((in_unit p /\ in_unit v /\ in_unit s) /\ scale = 1
      \/ (~ (in_unit p /\ in_unit v /\ in_unit s)) /\ scale < 1
         /\ exists x, (x = p \/ x = v \/ x = s)
                      /\ (x * scale == 1 \/ x * scale == -1)).
Proof.
  intro scale.
  pose proof (limitThrusterSaturation_pos p v s) as Hpos. fold scale in Hpos.
  destruct (Cxx.ltb (Cxx.std_min (Cxx.std_min p v) s) (-1)
            || Cxx.ltb 1 (Cxx.std_max (Cxx.std_max p v) s))%bool eqn:Hsat.
  - destruct (saturated_tight p v s Hsat) as (Hlt & Hx). fold scale in Hlt, Hx.
    split; [ lra | ]. right. split; [ | split; assumption ].
    intro Hall. destruct Hall as (Hp & Hv & Hs).
    pose proof (limitThrusterSaturation_idle p v s Hp Hv Hs) as E.
    fold scale in E. rewrite E in Hlt. lra.
  - pose proof (unsaturated_in_unit p v s Hsat) as Hall.
    destruct Hall as (Hp & Hv & Hs).
    pose proof (limitThrusterSaturation_idle p v s Hp Hv Hs) as E.
    fold scale in E. split; [ rewrite E; lra | ]. left. auto.
Qed.

(** ** The allocation in closed form *)

(** X4. For a nonzero offset [d] the allocation has exactly one solution,
    the one the node computes: [T_port = (fx - mz/d) / 2],
    [T_vert = fz], [T_stbd = (fx + mz/d) / 2].  Surge is shared equally
    by port and starboard, yaw drives them apart, and heave reaches the
    vertical thruster only. *)
Theorem allocation_closed_form (d : Q) (F : Vector3d) :
  ~ d == 0 ->
  exists T,
    thruster_forces d F = Some T
    /\ veq T (Vector3 ((vx F - vz F / d) / 2) (vy F) ((vx F + vz F / d) / 2))
    /\ forall T', veq (mul_vec (allocation d) T') F -> veq T' T.
Proof.
  intro Hd. destruct (thruster_forces_solve d F Hd) as (T & HT & _).
  exists T. split; [ exact HT | ].
  destruct (thruster_forces_closed d F T HT) as (H0 & H1 & H2).
  split; [ unfold veq; simpl; auto | ].
  intros T' (E0 & E1 & E2). unfold mul_vec, allocation in E0, E1, E2.
  simpl in E0, E1, E2. unfold veq.
  rewrite H0, H1, H2, <- E0, <- E1, <- E2.
  repeat split; field; exact Hd.
Qed.

Lemma allocation_closed_form_witness :
  ~ 0.045 == 0
  /\ exists T,
       thruster_forces 0.045 (Vector3 4 3 0.3) = Some T
       /\ veq T (Vector3 ((vx (Vector3 4 3 0.3) - vz (Vector3 4 3 0.3) / 0.045) / 2)
                         (vy (Vector3 4 3 0.3))
                         ((vx (Vector3 4 3 0.3) + vz (Vector3 4 3 0.3) / 0.045) / 2))
       /\ forall T', veq (mul_vec (allocation 0.045) T') (Vector3 4 3 0.3)
                     -> veq T' T.
Proof.
  assert (Hd : ~ 0.045 == 0) by lra.
  split; [ exact Hd | exact (allocation_closed_form 0.045 (Vector3 4 3 0.3) Hd) ].
Defined.

(** X5. The determinant of the allocation matrix is [2 d]: the matrix the
    source calls full rank is invertible exactly when the thruster
    offset is not zero, and only then does the model give thruster
    forces. *)
Theorem allocation_invertible_iff (d : Q) (F : Vector3d) :
  determinant (allocation d) == 2 * d
  /\ (thruster_forces d F = None <-> d == 0).
Proof.
  split; [ apply allocation_determinant | ].
  split.
  - intro H. destruct (Qeq_dec d 0) as [E | E]; [ exact E | ].
    destruct (thruster_forces_solve d F E) as (T & HT & _). congruence.
  - intro E. unfold thruster_forces, inverse.
    assert (Hdet : Cxx.eqb (determinant (allocation d)) 0 = true).
    { apply eqb_eq. rewrite allocation_determinant. lra. }
    now rewrite Hdet.
Qed.

(** ** The pulse width of a fraction *)

Lemma round_Z_opp (x : Q) : Cxx.round_Z (- x) = (- Cxx.round_Z x)%Z.
Proof.
  unfold Cxx.round_Z.
  destruct (Q_dec x 0) as [ [Hneg | Hpos] | Hz ].
  - assert (E1 : Cxx.ltb x 0 = true) by (now apply ltb_lt).
    assert (E2 : Cxx.ltb (- x) 0 = false) by (apply ltb_ge; lra).
    rewrite E1, E2. unfold Qceiling. rewrite Z.opp_involutive.
    apply Qfloor_comp. ring.
  - assert (E1 : Cxx.ltb x 0 = false) by (apply ltb_ge; lra).
    assert (E2 : Cxx.ltb (- x) 0 = true) by (apply ltb_lt; lra).
    rewrite E1, E2. unfold Qceiling. f_equal.
    apply Qfloor_comp. ring.
  - assert (E1 : Cxx.ltb x 0 = false) by (apply ltb_ge; lra).
    assert (E2 : Cxx.ltb (- x) 0 = false) by (apply ltb_ge; lra).
    rewrite E1, E2.
    rewrite (Qfloor_comp (- x + (1 # 2)) (1 # 2)) by lra.
    rewrite (Qfloor_comp (x + (1 # 2)) (1 # 2)) by lra.
    reflexivity.
Qed.

(** X6. The pulse widths mirror about the neutral 1500: a fraction and
    its opposite are encoded at the same distance on either side, so
    forward and reverse commands are symmetric. *)
Theorem pulse_width_mirror (x : Q) :
  in_unit x ->
  exists w, pulse_width x = Some w /\ pulse_width (- x) = Some (3000 - w)%Z.
Proof.
  intro Hx.
  assert (Hx' : in_unit (- x)) by (unfold in_unit in *; lra).
  destruct (pulse_width_value x Hx) as [-> _].
  destruct (pulse_width_value (- x) Hx') as [-> _].
  eexists. split; [ reflexivity | ]. f_equal.
  rewrite (round_Z_comp (- x * 500) (- (x * 500))) by ring.
  rewrite round_Z_opp. lia.
Qed.

Lemma pulse_width_mirror_witness :
  in_unit (3 # 10)
  /\ exists w, pulse_width (3 # 10) = Some w
               /\ pulse_width (- (3 # 10)) = Some (3000 - w)%Z.
Proof.
  assert (Hx : in_unit (3 # 10)) by (unfold in_unit; lra).
  split; [ exact Hx | exact (pulse_width_mirror (3 # 10) Hx) ].
Defined.

(** ** The callback in closed form *)

Lemma index_ok_dec {A : Type} (v : list A) (i : Z) : {index_ok v i} + {~ index_ok v i}.
Proof.
  unfold index_ok.
  destruct (Z_le_dec 0 i) as [H0 | H0]; [ | right; lia ].
  destruct (Z_lt_dec i (Z.of_nat (length v))) as [H1 | H1]; [ left | right ]; lia.
Qed.

Lemma light_values_app (out1 out2 : list Published) :
  light_values (out1 ++ out2) = light_values out1 ++ light_values out2.
Proof.
  induction out1 as [ | [ m | v | v ] out1 IH ]; simpl; congruence.
Qed.

Lemma laser_values_app (out1 out2 : list Published) :
  laser_values (out1 ++ out2) = laser_values out1 ++ laser_values out2.
Proof.
  induction out1 as [ | [ m | v | v ] out1 IH ]; simpl; congruence.
Qed.

Lemma motor_values_app (out1 out2 : list Published) :
  motor_values (out1 ++ out2) = motor_values out1 ++ motor_values out2.
Proof.
  induction out1 as [ | [ m | v | v ] out1 IH ]; simpl; congruence.
Qed.

(** The whole effect of one [joyCallback] on a sample that covers the
    configured indices: the new command, the clamped light level, the
    laser state, and what is published. *)
Lemma joyCallback_anatomy (self : OpenROVTeleop) (joy : Joy) :
  ~ d self == 0 -> joy_fits self joy ->
  exists cmds a b,
    Cxx.vec_at (axes joy) (lightsAdjButton self) = Some a
    /\ Cxx.vec_at (buttons joy) (laserToggleButton self) = Some b
    /\ cmd_in_servo_range cmds
    /\ joy_thrusters self joy = Some (set_motor_cmds self cmds)
    /\ let l := clamp_light (lightVal self + a * (-0.1)) in
       let changed := negb (Cxx.eqb (oldLightVal self) l) in
       let fire := (negb (b =? 0)%Z
                    && (laserToggle self =? oldLaserToggle self)%Z)%bool in
       let t := if (oldLaserToggle self =? 0)%Z then 255%Z else 0%Z in
       joyCallback self joy =
       Some (set_laser
               (set_light (set_motor_cmds self cmds) l
                          (if changed then l else oldLightVal self))
               (if fire then t else laserToggle self)
               (if fire then t else oldLaserToggle self),
             (if changed then [pub_light_command l] else [])
             ++ (if fire then [pub_laser_toggle t] else [])).
Proof.
  intros Hd Hfit.
  destruct (joy_thrusters_spec self joy Hd Hfit) as (cmds & Hthr & Hcmds).
  destruct Hfit as (_ & _ & _ & Hlight & Hlaser).
  destruct (vec_at_defined _ _ Hlight) as [a Ha].
  destruct (vec_at_defined _ _ Hlaser) as [b Hb].
  exists cmds, a, b.
  split; [ exact Ha | ]. split; [ exact Hb | ]. split; [ exact Hcmds | ].
  split; [ exact Hthr | ].
  intros l changed fire t. unfold joyCallback. rewrite Hthr. cbn [bind].
  unfold joy_lights.
  change (lightsAdjButton (set_motor_cmds self cmds)) with (lightsAdjButton self).
  rewrite Ha. cbn [bind].
  change (lightVal (set_motor_cmds self cmds)) with (lightVal self).
  change (oldLightVal (set_motor_cmds self cmds)) with (oldLightVal self).
  fold (clamp_light (lightVal self + a * (-0.1))). fold l. fold changed.
  unfold joy_lasers.
  destruct changed; cbn [bind]; simpl laserToggleButton; rewrite Hb; cbn [bind];
    simpl laserToggle; simpl oldLaserToggle; subst fire;
    destruct (negb (b =? 0)%Z);
    destruct (laserToggle self =? oldLaserToggle self)%Z; reflexivity.
Qed.

(** ** The callback is defined exactly on the samples that fit *)

(** A sample whose button sequence is too short for the laser button:
    the call is undefined although every axis read is in range. *)
Example short_buttons_undefined :
  joyCallback (OpenROVTeleop_new no_params)
              {| axes := [0; 0; 0; 0; 0; 0; 0; 0]; buttons := [0; 0; 0; 1]%Z |}
  = None.
Proof. vm_compute. reflexivity. Qed.

(** ** Stick at rest, pure surge, full saturation *)

Lemma esc_vals_value (P V S : Q) (cmds : motortarget) :
  esc_vals (P, V, S) = Some cmds ->
  let k := limitThrusterSaturation P V S in
  pulse_width (P * k) = Some (motors0 cmds)
  /\ pulse_width (V * k) = Some (motors1 cmds)
  /\ pulse_width (S * k) = Some (motors2 cmds).
Proof.
  intros H k. unfold esc_vals in H. fold k in H.
  destruct (pulse_width (P * k)) as [Pms | ]; [ | discriminate ].
  destruct (pulse_width (V * k)) as [Vms | ]; [ | discriminate ].
  destruct (pulse_width (S * k)) as [Sms | ]; [ | discriminate ].
  cbn [bind] in H. injection H as <-. simpl. auto.
Qed.

Lemma joy_thrusters_anatomy (self : OpenROVTeleop) (joy : Joy) (F : Vector3d) :
  ~ d self == 0 ->
  desired_wrench self joy = Some F ->
  exists T P V S cmds,
    thruster_forces (d self) F = Some T
    /\ computePctThrustGraupner230860 (vx T) = Some P
    /\ computePctThrustGraupner230357 (vy T) = Some V
    /\ computePctThrustGraupner230860 (vz T) = Some S
    /\ esc_vals (P, V, S) = Some cmds
    /\ joy_thrusters self joy = Some (set_motor_cmds self cmds).
Proof.
  intros Hd HF. unfold joy_thrusters. rewrite HF. cbn [bind].
  destruct (thruster_forces_solve (d self) F Hd) as (T & HT & _).
  rewrite HT. cbn [bind]. unfold pct_thrust.
  destruct (computePctThrustGraupner230860_defined (vx T)) as [P HP].
  destruct (computePctThrustGraupner230357_defined (vy T)) as [V HV].
  destruct (computePctThrustGraupner230860_defined (vz T)) as [S HS].
  rewrite HP, HV, HS. cbn [bind].
  destruct (esc_vals_in_range P V S) as (cmds & Hc & _).
  rewrite Hc. cbn [bind].
  exists T, P, V, S, cmds. repeat split; auto.
Qed.

Lemma desired_wrench_value (self : OpenROVTeleop) (joy : Joy) (ax az ayaw : Q) :
  axis_is joy (x_controllerAxis self) ax ->
  axis_is joy (z_controllerAxis self) az ->
  axis_is joy (yaw_controllerAxis self) ayaw ->
  exists F, desired_wrench self joy = Some F
            /\ veq F (Vector3 (x_gain self * ax) (z_gain self * az)
                              (yaw_gain self * ayaw)).
Proof.
  intros (x & Hx & Ex) (z & Hz & Ez) (y & Hy & Ey).
  unfold desired_wrench. rewrite Hx, Hz, Hy. cbn [bind].
  eexists. split; [ reflexivity | ].
  unfold veq. simpl. rewrite Ex, Ez, Ey. repeat split; reflexivity.
Qed.

(** X9. With the three wrench axes at rest the stored command is the
    neutral (1500, 1500, 1500), whatever the gains and the (nonzero)
    thruster offset. *)
Theorem sticks_at_rest_neutral (self : OpenROVTeleop) (joy : Joy) :
  ~ d self == 0 ->
  axis_is joy (x_controllerAxis self) 0 ->
  axis_is joy (z_controllerAxis self) 0 ->
  axis_is joy (yaw_controllerAxis self) 0 ->
  joy_thrusters self joy = Some (set_motor_cmds self neutral_cmd).
Proof.
  intros Hd Hx Hz Hy.
  destruct (desired_wrench_value self joy 0 0 0 Hx Hz Hy) as (F & HF & E0 & E1 & E2).
  simpl in E0, E1, E2.
  destruct (joy_thrusters_anatomy self joy F Hd HF)
    as (T & P & V & S & cmds & HT & HP & HV & HS & Hc & ->).
  destruct (thruster_forces_closed _ _ _ HT) as (T0 & T1 & T2).
  assert (Z0 : vx T == 0) by (rewrite T0, E0, E2; field; exact Hd).
  assert (Z1 : vy T == 0) by (rewrite T1, E1; ring).
  assert (Z2 : vz T == 0) by (rewrite T2, E0, E2; field; exact Hd).
  rewrite (curve860_zero _ Z0) in HP. rewrite (curve357_zero _ Z1) in HV.
  rewrite (curve860_zero _ Z2) in HS.
  injection HP as <-. injection HV as <-. injection HS as <-.
  vm_compute in Hc. injection Hc as <-. reflexivity.
Qed.

Lemma sticks_at_rest_neutral_witness :
  (~ d (OpenROVTeleop_new strong_gain) == 0
   /\ axis_is light_up (x_controllerAxis (OpenROVTeleop_new strong_gain)) 0
   /\ axis_is light_up (z_controllerAxis (OpenROVTeleop_new strong_gain)) 0
   /\ axis_is light_up (yaw_controllerAxis (OpenROVTeleop_new strong_gain)) 0)
  /\ joy_thrusters (OpenROVTeleop_new strong_gain) light_up
     = Some (set_motor_cmds (OpenROVTeleop_new strong_gain) neutral_cmd).
Proof.
  assert (Hd : ~ d (OpenROVTeleop_new strong_gain) == 0) by (simpl; lra).
  assert (Hx : axis_is light_up (x_controllerAxis (OpenROVTeleop_new strong_gain)) 0)
    by (exists 0; split; reflexivity).
  assert (Hz : axis_is light_up (z_controllerAxis (OpenROVTeleop_new strong_gain)) 0)
    by (exists 0; split; reflexivity).
  assert (Hy : axis_is light_up (yaw_controllerAxis (OpenROVTeleop_new strong_gain)) 0)
    by (exists 0; split; reflexivity).
  split; [ exact (conj Hd (conj Hx (conj Hz Hy))) | ].
  exact (sticks_at_rest_neutral (OpenROVTeleop_new strong_gain) light_up Hd Hx Hz Hy).
Defined.

Lemma curve860_comp (f g : Q) :
  f == g ->
  same_pct (computePctThrustGraupner230860 f) (computePctThrustGraupner230860 g).
Proof.
  intro H. unfold same_pct.
  destruct (curve860_value f) as (a & -> & Hap & Han & Haz).
  destruct (curve860_value g) as (b & -> & Hbp & Hbn & Hbz).
  exists a, b. split; [ reflexivity | ]. split; [ reflexivity | ].
  destruct (Q_dec f 0) as [ [Hf | Hf] | Hf ].
  - assert (Hg : g < 0) by lra. specialize (Han Hf). specialize (Hbn Hg). lra.
  - assert (Hg : 0 < g) by lra. specialize (Hap Hf). specialize (Hbp Hg). lra.
  - assert (Hg : g == 0) by lra. specialize (Haz Hf). specialize (Hbz Hg). lra.
Qed.

(** X10. Without yaw (the yaw axis at rest) the port and starboard
    thrusters get the same pulse width, whatever the surge and heave
    demands and however the command was scaled. *)
Theorem no_yaw_port_equals_starboard (self : OpenROVTeleop) (joy : Joy) :
  ~ d self == 0 ->
  index_ok (axes joy) (x_controllerAxis self) ->
  index_ok (axes joy) (z_controllerAxis self) ->
  axis_is joy (yaw_controllerAxis self) 0 ->
  exists cmds,
    joy_thrusters self joy = Some (set_motor_cmds self cmds)
    /\ motors0 cmds = motors2 cmds.
Proof.
  intros Hd Hx Hz Hy.
  destruct (vec_at_defined _ _ Hx) as [ax Hax].
  destruct (vec_at_defined _ _ Hz) as [az Haz].
  assert (Hx' : axis_is joy (x_controllerAxis self) ax)
    by (exists ax; split; [ exact Hax | reflexivity ]).
  assert (Hz' : axis_is joy (z_controllerAxis self) az)
    by (exists az; split; [ exact Haz | reflexivity ]).
  destruct (desired_wrench_value self joy ax az 0 Hx' Hz' Hy) as (F & HF & E0 & E1 & E2).
  simpl in E0, E1, E2.
  destruct (joy_thrusters_anatomy self joy F Hd HF)
    as (T & P & V & S & cmds & HT & HP & HV & HS & Hc & Hrun).
  exists cmds. split; [ exact Hrun | ].
  destruct (thruster_forces_closed _ _ _ HT) as (T0 & _ & T2).
  assert (ET : vx T == vz T) by (rewrite T0, T2, E2; field; exact Hd).
  destruct (curve860_comp _ _ ET) as (P' & S' & HP' & HS' & EPS).
  rewrite HP in HP'. rewrite HS in HS'.
  injection HP' as <-. injection HS' as <-.
  destruct (esc_vals_value P V S cmds Hc) as (H0 & _ & H2).
  rewrite (pulse_width_comp (P * limitThrusterSaturation P V S)
                            (S * limitThrusterSaturation P V S)) in H0
    by (apply Qmult_comp; [ exact EPS | reflexivity ]).
  congruence.
Qed.

Lemma no_yaw_port_equals_starboard_witness :
  (~ d (OpenROVTeleop_new strong_gain) == 0
   /\ index_ok (axes scenario_B) (x_controllerAxis (OpenROVTeleop_new strong_gain))
   /\ index_ok (axes scenario_B) (z_controllerAxis (OpenROVTeleop_new strong_gain))
   /\ axis_is scenario_B (yaw_controllerAxis (OpenROVTeleop_new strong_gain)) 0)
  /\ exists cmds,
       joy_thrusters (OpenROVTeleop_new strong_gain) scenario_B
       = Some (set_motor_cmds (OpenROVTeleop_new strong_gain) cmds)
       /\ motors0 cmds = motors2 cmds.
Proof.
  assert (Hd : ~ d (OpenROVTeleop_new strong_gain) == 0) by (simpl; lra).
  assert (Hx : index_ok (axes scenario_B)
                        (x_controllerAxis (OpenROVTeleop_new strong_gain)))
    by (unfold index_ok; simpl; lia).
  assert (Hz : index_ok (axes scenario_B)
                        (z_controllerAxis (OpenROVTeleop_new strong_gain)))
    by (unfold index_ok; simpl; lia).
  assert (Hy : axis_is scenario_B
                       (yaw_controllerAxis (OpenROVTeleop_new strong_gain)) 0)
    by (exists 0; split; reflexivity).
  split; [ exact (conj Hd (conj Hx (conj Hz Hy))) | ].
  exact (no_yaw_port_equals_starboard
           (OpenROVTeleop_new strong_gain) scenario_B Hd Hx Hz Hy).
Defined.

(** X11, in exact arithmetic.  When a (finite) fraction is out of
    range, the scaled command still uses the full range: one of the
    three pulse widths is exactly 1000 or 2000. *)
Theorem saturated_command_reaches_limit (p v s : Q) :
  ~ (in_unit p /\ in_unit v /\ in_unit s) ->
  exists cmds,
    esc_vals (p, v, s) = Some cmds
    /\ exists w, (w = motors0 cmds \/ w = motors1 cmds \/ w = motors2 cmds)
                 /\ (w = 1000 \/ w = 2000)%Z.
Proof.
  intro Hout.
  destruct (esc_vals_in_range p v s) as (cmds & Hc & _).
  exists cmds. split; [ exact Hc | ].
  destruct (esc_vals_value p v s cmds Hc) as (H0 & H1 & H2).
  destruct (Cxx.ltb (Cxx.std_min (Cxx.std_min p v) s) (-1)
            || Cxx.ltb 1 (Cxx.std_max (Cxx.std_max p v) s))%bool eqn:Hsat;
    [ | exfalso; apply Hout; now apply unsaturated_in_unit ].
  destruct (saturated_tight p v s Hsat) as (_ & x & Hx & Hone).
  assert (Hw : pulse_width (x * limitThrusterSaturation p v s) = Some 2000%Z
               \/ pulse_width (x * limitThrusterSaturation p v s) = Some 1000%Z).
  { destruct Hone as [E | E]; [ left | right ];
      rewrite (pulse_width_comp _ _ E); reflexivity. }
  destruct Hx as [-> | [-> | ->]].
  - exists (motors0 cmds). split; [ auto | ].
    destruct Hw as [E | E]; rewrite E in H0; injection H0 as <-; auto.
  - exists (motors1 cmds). split; [ auto | ].
    destruct Hw as [E | E]; rewrite E in H1; injection H1 as <-; auto.
  - exists (motors2 cmds). split; [ auto | ].
    destruct Hw as [E | E]; rewrite E in H2; injection H2 as <-; auto.
Qed.

Lemma saturated_command_reaches_limit_witness :
  ~ (in_unit 1.5 /\ in_unit 0.2 /\ in_unit (-1.3))
  /\ exists cmds,
       esc_vals (1.5, 0.2, -1.3) = Some cmds
       /\ exists w, (w = motors0 cmds \/ w = motors1 cmds \/ w = motors2 cmds)
                    /\ (w = 1000 \/ w = 2000)%Z.
Proof.
  assert (H : ~ (in_unit 1.5 /\ in_unit 0.2 /\ in_unit (-1.3)))
    by (unfold in_unit; intros ((_ & H) & _); lra).
  split; [ exact H | exact (saturated_command_reaches_limit 1.5 0.2 (-1.3) H) ].
Defined.

(** ** What one callback publishes *)

(** X12. A [joyCallback] publishes no motor command (the timer does
    that), at most one light message and at most one laser message, the
    light message first. *)
Theorem joyCallback_output_shape (self : OpenROVTeleop) (joy : Joy) :
  ~ d self == 0 -> joy_fits self joy ->
  exists self' out,
    joyCallback self joy = Some (self', out)
    /\ motor_values out = []
    /\ out = map pub_light_command (light_values out)
             ++ map pub_laser_toggle (laser_values out)
    /\ (length (light_values out) <= 1)%nat
    /\ (length (laser_values out) <= 1)%nat.
Proof.
  intros Hd Hfit.
  destruct (joyCallback_anatomy self joy Hd Hfit)
    as (cmds & a & b & _ & _ & _ & _ & H).
  cbv zeta in H. do 2 eexists. split; [ exact H | ].
  destruct (negb (Cxx.eqb _ _)); destruct (negb (b =? 0)%Z && _)%bool;
    simpl; repeat split; auto.
Qed.

Lemma joyCallback_output_shape_witness :
  (~ d (OpenROVTeleop_new no_params) == 0
   /\ joy_fits (OpenROVTeleop_new no_params) laser_held)
  /\ exists self' out,
       joyCallback (OpenROVTeleop_new no_params) laser_held = Some (self', out)
       /\ motor_values out = []
       /\ out = map pub_light_command (light_values out)
                ++ map pub_laser_toggle (laser_values out)
       /\ (length (light_values out) <= 1)%nat
       /\ (length (laser_values out) <= 1)%nat.
Proof.
  assert (Hd : ~ d (OpenROVTeleop_new no_params) == 0) by (simpl; lra).
  assert (Hfit : joy_fits (OpenROVTeleop_new no_params) laser_held)
    by (unfold joy_fits, index_ok; simpl; lia).
  split; [ exact (conj Hd Hfit) | ].
  exact (joyCallback_output_shape (OpenROVTeleop_new no_params) laser_held Hd Hfit).
Defined.

(** ** The light *)

Lemma clamp_light_id (x : Q) : 0 <= x <= 1 -> clamp_light x = x.
Proof.
  intros [H0 H1]. unfold clamp_light.
  assert (E1 : Cxx.ltb 1 x = false) by (now apply ltb_ge).
  assert (E0 : Cxx.ltb x 0 = false) by (now apply ltb_ge).
  now rewrite E1, E0.
Qed.

Lemma clamp_light_high (x : Q) : 1 <= x -> clamp_light x == 1.
Proof.
  intro H. unfold clamp_light. destruct (Cxx.ltb 1 x) eqn:E1.
  - reflexivity.
  - apply ltb_ge in E1.
    assert (E0 : Cxx.ltb x 0 = false) by (apply ltb_ge; lra).
    rewrite E0. lra.
Qed.

Lemma clamp_light_low (x : Q) : x <= 0 -> clamp_light x == 0.
Proof.
  intro H. unfold clamp_light.
  assert (E1 : Cxx.ltb 1 x = false) by (apply ltb_ge; lra).
  rewrite E1. destruct (Cxx.ltb x 0) eqn:E0.
  - reflexivity.
  - apply ltb_ge in E0. lra.
Qed.

(** The light section of a callback, for a state whose last published
    level is the current one. *)
Lemma joyCallback_light (self : OpenROVTeleop) (joy : Joy) (a : Q) :
  ~ d self == 0 -> joy_fits self joy ->
  Cxx.vec_at (axes joy) (lightsAdjButton self) = Some a ->
  oldLightVal self == lightVal self ->
  exists self' out,
    joyCallback self joy = Some (self', out)
    /\ lightVal self' = clamp_light (lightVal self + a * (-0.1))
    /\ (lightVal self' == lightVal self -> light_values out = [])
    /\ (~ lightVal self' == lightVal self -> light_values out = [lightVal self']).
Proof.
  intros Hd Hfit Ha Hold.
  destruct (joyCallback_anatomy self joy Hd Hfit)
    as (cmds & a' & b & Ha' & _ & _ & _ & H).
  rewrite Ha in Ha'. injection Ha' as <-.
  cbv zeta in H. do 2 eexists. split; [ exact H | ].
  cbn [lightVal set_laser set_light]. split; [ reflexivity | ].
  rewrite light_values_app.
  assert (Hl : forall fire t,
             light_values (if fire : bool then [pub_laser_toggle t] else []) = [])
    by (intros [ | ] t; reflexivity).
  rewrite Hl, app_nil_r.
  destruct (negb (Cxx.eqb _ _)) eqn:E.
  - apply negb_true_iff, eqb_neq in E. split; [ | reflexivity ].
    intro Heq. exfalso. apply E. lra.
  - apply negb_false_iff, eqb_eq in E. split; [ reflexivity | ].
    intro Hne. exfalso. apply Hne. lra.
Qed.

(** X15. The light is silent at rest and at its limits: with the light
    axis at zero, or pushed further up at full level, or further down at
    level zero, the level stays and no light message is published. *)
Theorem light_silent_at_rest_and_limits (self : OpenROVTeleop) (joy : Joy) (a : Q) :
  ~ d self == 0 -> joy_fits self joy ->
  Cxx.vec_at (axes joy) (lightsAdjButton self) = Some a ->
  oldLightVal self == lightVal self ->
  0 <= lightVal self <= 1 ->
  a == 0 \/ (lightVal self == 1 /\ a <= 0) \/ (lightVal self == 0 /\ 0 <= a) ->
  exists self' out,
    joyCallback self joy = Some (self', out)
    /\ lightVal self' == lightVal self
    /\ light_values out = [].
Proof.
  intros Hd Hfit Ha Hold Hrange Hcase.
  destruct (joyCallback_light self joy a Hd Hfit Ha Hold)
    as (self' & out & Hrun & Hl & Hsame & _).
  exists self', out. split; [ exact Hrun | ].
  assert (E : lightVal self' == lightVal self).
  { rewrite Hl. destruct Hcase as [Hz | [[H1 Hneg] | [H0 Hpos]]].
    - rewrite clamp_light_id by lra. lra.
    - rewrite clamp_light_high by lra. lra.
    - rewrite clamp_light_low by lra. lra. }
  split; [ exact E | exact (Hsame E) ].
Qed.

Lemma light_silent_at_rest_and_limits_witness :
  (~ d (OpenROVTeleop_new no_params) == 0
   /\ joy_fits (OpenROVTeleop_new no_params) scenario_B
   /\ Cxx.vec_at (axes scenario_B) (lightsAdjButton (OpenROVTeleop_new no_params))
      = Some 0
   /\ oldLightVal (OpenROVTeleop_new no_params)
      == lightVal (OpenROVTeleop_new no_params)
   /\ 0 <= lightVal (OpenROVTeleop_new no_params) <= 1
   /\ (0 == 0
       \/ (lightVal (OpenROVTeleop_new no_params) == 1 /\ 0 <= 0)
       \/ (lightVal (OpenROVTeleop_new no_params) == 0 /\ 0 <= 0)))
  /\ exists self' out,
       joyCallback (OpenROVTeleop_new no_params) scenario_B = Some (self', out)
       /\ lightVal self' == lightVal (OpenROVTeleop_new no_params)
       /\ light_values out = [].
Proof.
  assert (Hd : ~ d (OpenROVTeleop_new no_params) == 0) by (simpl; lra).
  assert (Hfit : joy_fits (OpenROVTeleop_new no_params) scenario_B)
    by (unfold joy_fits, index_ok; simpl; lia).
  assert (Ha : Cxx.vec_at (axes scenario_B)
                          (lightsAdjButton (OpenROVTeleop_new no_params))
               = Some 0) by reflexivity.
  assert (Hold : oldLightVal (OpenROVTeleop_new no_params)
                 == lightVal (OpenROVTeleop_new no_params)) by reflexivity.
  assert (Hr : 0 <= lightVal (OpenROVTeleop_new no_params) <= 1) by (simpl; lra).
  assert (Hc : 0 == 0
               \/ (lightVal (OpenROVTeleop_new no_params) == 1 /\ 0 <= 0)
               \/ (lightVal (OpenROVTeleop_new no_params) == 0 /\ 0 <= 0))
    by (left; reflexivity).
  split; [ exact (conj Hd (conj Hfit (conj Ha (conj Hold (conj Hr Hc))))) | ].
  exact (light_silent_at_rest_and_limits
           (OpenROVTeleop_new no_params) scenario_B 0 Hd Hfit Ha Hold Hr Hc).
Defined.

(** ** The laser over a run *)

Lemma event_fits_same_config (a b : OpenROVTeleop) (events : list Event) :
  same_config a b -> Forall (event_fits a) events -> Forall (event_fits b) events.
Proof.
  intros Hcfg H. eapply Forall_impl; [ | exact H ].
  intros [ joy | ]; simpl; [ | trivial ]. now apply joy_fits_same_config.
Qed.

Lemma presses_same_config (a b : OpenROVTeleop) (events : list Event) :
  same_config a b -> presses a events = presses b events.
Proof.
  intros (_ & _ & _ & _ & Hl & _). unfold presses. f_equal.
  apply filter_ext. intros [ joy | ]; simpl; [ now rewrite Hl | reflexivity ].
Qed.

Lemma presses_cons (self : OpenROVTeleop) (e : Event) (events : list Event) :
  presses self (e :: events)
  = ((if pressedb self e then 1 else 0) + presses self events)%nat.
Proof. unfold presses. cbn [filter]. destruct (pressedb self e); reflexivity. Qed.

Lemma same_config_d (a b : OpenROVTeleop) :
  same_config a b -> ~ d a == 0 -> ~ d b == 0.
Proof. intros (_ & _ & _ & _ & _ & _ & _ & _ & _ & <-) H. exact H. Qed.

(** The laser section of a callback, for a state whose two laser members
    are equal: the state flips exactly when the button reads nonzero. *)
Lemma joyCallback_laser (self : OpenROVTeleop) (joy : Joy) (on : bool) :
  ~ d self == 0 -> joy_fits self joy ->
  laserToggle self = oldLaserToggle self ->
  laserToggle self = (if on then 0 else 255)%Z ->
  exists self' out,
    joyCallback self joy = Some (self', out)
    /\ same_config self self'
    /\ cmd_in_servo_range (motor_cmds self')
    /\ motor_values out = []
    /\ laserToggle self' = oldLaserToggle self'
    /\ (if pressedb self (JoyEvent joy)
        then laserToggle self' = (if on then 255 else 0)%Z
             /\ laser_values out = [(if on then 255 else 0)%Z]
        else laserToggle self' = laserToggle self /\ laser_values out = []).
Proof.
  intros Hd Hfit Heq Hon.
  destruct (joyCallback_anatomy self joy Hd Hfit)
    as (cmds & a & b & _ & Hb & Hcmds & _ & H).
  cbv zeta in H. do 2 eexists. split; [ exact H | ].
  split; [ unfold same_config; repeat split | ].
  split; [ exact Hcmds | ].
  simpl pressedb. rewrite Hb. rewrite <- Heq, Z.eqb_refl, andb_true_r.
  rewrite laser_values_app, motor_values_app.
  cbn [laserToggle oldLaserToggle set_laser].
  assert (Ht : (if (laserToggle self =? 0)%Z then 255 else 0)%Z
               = (if on then 255 else 0)%Z)
    by (rewrite Hon; destruct on; reflexivity).
  rewrite Ht.
  destruct (negb (Cxx.eqb _ _)); destruct (negb (b =? 0)%Z);
    simpl; repeat split; auto.
Qed.

Lemma laser_run (events : list Event) :
  forall (self : OpenROVTeleop) (on : bool),
    ~ d self == 0 ->
    Forall (event_fits self) events ->
    laserToggle self = oldLaserToggle self ->
    laserToggle self = (if on then 0 else 255)%Z ->
    exists self' out,
      spin self events = Some (self', out)
      /\ laser_values out = blink (presses self events) on
      /\ laserToggle self'
         = (if xorb on (Nat.even (presses self events)) then 255 else 0)%Z.
Proof.
  induction events as [ | e events IH ]; intros self on Hd Hfit Heq Hon.
  - exists self, []. split; [ reflexivity | ]. split; [ reflexivity | ].
    rewrite Hon. destruct on; reflexivity.
  - inversion Hfit as [ | ? ? He Hrest ]; subst.
    destruct e as [ joy | ].
    + destruct (joyCallback_laser self joy on Hd He Heq Hon)
        as (self1 & out1 & Hrun & Hcfg & _ & _ & Heq1 & Hstep).
      pose proof (event_fits_same_config _ _ _ Hcfg Hrest) as Hrest1.
      pose proof (same_config_d _ _ Hcfg Hd) as Hd1.
      rewrite presses_cons, (presses_same_config _ _ events Hcfg).
      destruct (pressedb self (JoyEvent joy)); cbn [Nat.add].
      * destruct Hstep as [Hs Hv].
        destruct (IH self1 (negb on) Hd1 Hrest1 Heq1)
          as (self' & out & Hrun' & Hvals & Hfinal).
        { rewrite Hs. destruct on; reflexivity. }
        exists self', (out1 ++ out). cbn [spin dispatch]. rewrite Hrun. cbn [bind].
        rewrite Hrun'. cbn [bind]. split; [ reflexivity | ].
        rewrite laser_values_app, Hv, Hvals. cbn [length blink app].
        split; [ reflexivity | ].
        rewrite Hfinal, Nat.even_succ, <- Nat.negb_even.
        destruct on; destruct (Nat.even (presses self1 events)); reflexivity.
      * destruct Hstep as [Hs Hv].
        destruct (IH self1 on Hd1 Hrest1 Heq1)
          as (self' & out & Hrun' & Hvals & Hfinal).
        { now rewrite Hs. }
        exists self', (out1 ++ out). cbn [spin dispatch]. rewrite Hrun. cbn [bind].
        rewrite Hrun'. cbn [bind]. split; [ reflexivity | ].
        rewrite laser_values_app, Hv, Hvals. split; [ reflexivity | exact Hfinal ].
    + destruct (IH self on Hd Hrest Heq Hon)
        as (self' & out & Hrun' & Hvals & Hfinal).
      exists self', (pub_motortarget (motor_cmds self) :: out).
      cbn [spin dispatch timerCallback bind]. rewrite Hrun'. cbn [bind].
      rewrite presses_cons. cbn [pressedb Nat.add].
      split; [ reflexivity | ]. split; assumption.
Qed.

(** X16. Over any run of the node, the laser messages alternate 255, 0,
    255, ... starting with 255, one for every sample in which the button
    reads nonzero, and the laser ends on exactly when that number of
    samples is odd.  Samples with the button at zero and timer ticks
    publish no laser message and leave the laser as it is. *)
Theorem laser_alternates (ps : Params) (events : list Event) :
  Forall (event_fits (OpenROVTeleop_new ps)) events ->
  exists self out,
    spin (OpenROVTeleop_new ps) events = Some (self, out)
    /\ laser_values out = blink (presses (OpenROVTeleop_new ps) events) true
    /\ laserToggle self
       = (if Nat.even (presses (OpenROVTeleop_new ps) events) then 0 else 255)%Z.
Proof.
  intro Hfit.
  destruct (laser_run events (OpenROVTeleop_new ps) true)
    as (self & out & Hrun & Hvals & Hfinal); auto.
  - simpl. lra.
  - exists self, out. split; [ exact Hrun | ]. split; [ exact Hvals | ].
    rewrite Hfinal. destruct (Nat.even _); reflexivity.
Qed.

Lemma laser_alternates_witness :
  Forall (event_fits (OpenROVTeleop_new no_params))
         [JoyEvent laser_held; JoyEvent scenario_B; TimerEvent;
          JoyEvent laser_held; JoyEvent laser_held]
  /\ exists self out,
       spin (OpenROVTeleop_new no_params)
            [JoyEvent laser_held; JoyEvent scenario_B; TimerEvent;
             JoyEvent laser_held; JoyEvent laser_held] = Some (self, out)
       /\ laser_values out
          = blink (presses (OpenROVTeleop_new no_params)
                     [JoyEvent laser_held; JoyEvent scenario_B; TimerEvent;
                      JoyEvent laser_held; JoyEvent laser_held]) true
       /\ laserToggle self
          = (if Nat.even (presses (OpenROVTeleop_new no_params)
                            [JoyEvent laser_held; JoyEvent scenario_B; TimerEvent;
                             JoyEvent laser_held; JoyEvent laser_held])
             then 0 else 255)%Z.
Proof.
  assert (Hfit : Forall (event_fits (OpenROVTeleop_new no_params))
                        [JoyEvent laser_held; JoyEvent scenario_B; TimerEvent;
                         JoyEvent laser_held; JoyEvent laser_held]).
  { simpl. repeat constructor; unfold index_ok; simpl; lia. }
  split; [ exact Hfit | ].
  exact (laser_alternates no_params
           [JoyEvent laser_held; JoyEvent scenario_B; TimerEvent;
            JoyEvent laser_held; JoyEvent laser_held] Hfit).
Defined.

Example laser_alternates_run :
  option_map (fun r => (laserToggle (fst r), laser_values (snd r)))
    (spin (OpenROVTeleop_new no_params)
          [JoyEvent laser_held; JoyEvent scenario_B; TimerEvent;
           JoyEvent laser_held; JoyEvent laser_held])
  = Some (255%Z, [255; 0; 255]%Z).
Proof. vm_compute. reflexivity. Qed.

(** ** The timer *)

Lemma timer_run (events : list Event) :
  forall self : OpenROVTeleop,
    ~ d self == 0 ->
    Forall (event_fits self) events ->
    cmd_in_servo_range (motor_cmds self) ->
    exists self' out,
      spin self events = Some (self', out)
      /\ length (motor_values out) = ticks events
      /\ Forall cmd_in_servo_range (motor_values out).
Proof.
  induction events as [ | e events IH ]; intros self Hd Hfit Hcmd.
  - exists self, []. split; [ reflexivity | ]. split; [ reflexivity | constructor ].
  - inversion Hfit as [ | ? ? He Hrest ]; subst.
    destruct e as [ joy | ].
    + destruct (joyCallback_anatomy self joy Hd He)
        as (cmds & a & b & _ & _ & Hcmds & _ & H).
      cbv zeta in H.
      match type of H with _ = Some (?s, ?o) => set (self1 := s) in *; set (out1 := o) in * end.
      assert (Hcfg : same_config self self1) by (unfold same_config; repeat split).
      assert (Hnone : motor_values out1 = []).
      { unfold out1. rewrite motor_values_app.
        destruct (negb (Cxx.eqb _ _)); destruct (negb (b =? 0)%Z && _)%bool;
          reflexivity. }
      destruct (IH self1) as (self' & out & Hrun' & Hlen & Hall).
      * exact (same_config_d _ _ Hcfg Hd).
      * exact (event_fits_same_config _ _ _ Hcfg Hrest).
      * exact Hcmds.
      * exists self', (out1 ++ out). cbn [spin dispatch]. rewrite H. cbn [bind].
        rewrite Hrun'. cbn [bind]. split; [ reflexivity | ].
        rewrite motor_values_app, Hnone. simpl app.
        split; [ exact Hlen | exact Hall ].
    + destruct (IH self Hd Hrest Hcmd) as (self' & out & Hrun' & Hlen & Hall).
      exists self', (pub_motortarget (motor_cmds self) :: out).
      cbn [spin dispatch timerCallback bind]. rewrite Hrun'. cbn [bind].
      split; [ reflexivity | ]. simpl. unfold ticks in *. simpl.
      split; [ now rewrite Hlen | constructor; assumption ].
Qed.

(** X17, in exact arithmetic.  Once a joystick sample (of finite axis
    values) has been processed, from any state, every later timer tick
    publishes one motor command, and each published command has its
    three widths in [1000, 2000]; samples publish none. *)
Theorem ticks_publish_valid_commands
  (self : OpenROVTeleop) (joy : Joy) (events : list Event) :
  ~ d self == 0 ->
  Forall (event_fits self) (JoyEvent joy :: events) ->
  exists self' out,
    spin self (JoyEvent joy :: events) = Some (self', out)
    /\ length (motor_values out) = ticks events
    /\ Forall cmd_in_servo_range (motor_values out).
Proof.
  intros Hd Hfit. inversion Hfit as [ | ? ? He Hrest ]; subst.
  destruct (joyCallback_anatomy self joy Hd He)
    as (cmds & a & b & _ & _ & Hcmds & _ & H).
  cbv zeta in H.
  match type of H with _ = Some (?s, ?o) => set (self1 := s) in *; set (out1 := o) in * end.
  assert (Hcfg : same_config self self1) by (unfold same_config; repeat split).
  assert (Hnone : motor_values out1 = []).
  { unfold out1. rewrite motor_values_app.
    destruct (negb (Cxx.eqb _ _)); destruct (negb (b =? 0)%Z && _)%bool;
      reflexivity. }
  destruct (timer_run events self1) as (self' & out & Hrun' & Hlen & Hall).
  - exact (same_config_d _ _ Hcfg Hd).
  - exact (event_fits_same_config _ _ _ Hcfg Hrest).
  - exact Hcmds.
  - exists self', (out1 ++ out). cbn [spin dispatch]. rewrite H. cbn [bind].
    rewrite Hrun'. cbn [bind]. split; [ reflexivity | ].
    rewrite motor_values_app, Hnone. simpl app.
    split; [ exact Hlen | exact Hall ].
Qed.

Lemma ticks_publish_valid_commands_witness :
  (~ d (OpenROVTeleop_new strong_gain) == 0
   /\ Forall (event_fits (OpenROVTeleop_new strong_gain))
             (JoyEvent scenario_B :: [TimerEvent; JoyEvent light_up; TimerEvent]))
  /\ exists self' out,
       spin (OpenROVTeleop_new strong_gain)
            (JoyEvent scenario_B :: [TimerEvent; JoyEvent light_up; TimerEvent])
       = Some (self', out)
       /\ length (motor_values out)
          = ticks [TimerEvent; JoyEvent light_up; TimerEvent]
       /\ Forall cmd_in_servo_range (motor_values out).
Proof.
  assert (Hd : ~ d (OpenROVTeleop_new strong_gain) == 0) by (simpl; lra).
  assert (Hfit : Forall (event_fits (OpenROVTeleop_new strong_gain))
                        (JoyEvent scenario_B
                         :: [TimerEvent; JoyEvent light_up; TimerEvent])).
  { simpl. repeat constructor; unfold index_ok; simpl; lia. }
  split; [ exact (conj Hd Hfit) | ].
  exact (ticks_publish_valid_commands
           (OpenROVTeleop_new strong_gain) scenario_B
           [TimerEvent; JoyEvent light_up; TimerEvent] Hd Hfit).
Defined.

(** A tick that comes before the first sample publishes the
    zero-initialised command, which is no valid pulse width. *)
Example tick_before_first_sample :
  option_map snd (spin (OpenROVTeleop_new no_params) [TimerEvent])
  = Some [pub_motortarget zero_cmd]
  /\ ~ cmd_in_servo_range zero_cmd.
Proof.
  split; [ reflexivity | ].
  unfold cmd_in_servo_range, in_servo_range. simpl. lia.
Qed.

(** ** The camera tilt button *)

Lemma joy_thrusters_camTilt (self : OpenROVTeleop) (joy : Joy) (c : Z) :
  joy_thrusters (set_camTiltButton self c) joy
  = option_map (fun s => set_camTiltButton s c) (joy_thrusters self joy).
Proof.
  unfold joy_thrusters.
  change (desired_wrench (set_camTiltButton self c) joy)
    with (desired_wrench self joy).
  change (d (set_camTiltButton self c)) with (d self).
  destruct (desired_wrench self joy) as [F | ]; [ | reflexivity ]. cbn [bind].
  destruct (thruster_forces (d self) F) as [T | ]; [ | reflexivity ]. cbn [bind].
  destruct (pct_thrust T) as [pct | ]; [ | reflexivity ]. cbn [bind].
  destruct (esc_vals pct) as [cmds | ]; reflexivity.
Qed.

Lemma joy_lights_camTilt (self : OpenROVTeleop) (joy : Joy) (c : Z) :
  joy_lights (set_camTiltButton self c) joy
  = option_map (fun r => (set_camTiltButton (fst r) c, snd r)) (joy_lights self joy).
Proof.
  unfold joy_lights.
  change (lightsAdjButton (set_camTiltButton self c)) with (lightsAdjButton self).
  destruct (Cxx.vec_at (axes joy) (lightsAdjButton self)) as [a | ];
    [ | reflexivity ].
  cbn [bind].
  change (lightVal (set_camTiltButton self c)) with (lightVal self).
  change (oldLightVal (set_camTiltButton self c)) with (oldLightVal self).
  destruct (negb _); reflexivity.
Qed.

Lemma joy_lasers_camTilt (self : OpenROVTeleop) (joy : Joy) (c : Z) :
  joy_lasers (set_camTiltButton self c) joy
  = option_map (fun r => (set_camTiltButton (fst r) c, snd r)) (joy_lasers self joy).
Proof.
  unfold joy_lasers.
  change (laserToggleButton (set_camTiltButton self c)) with (laserToggleButton self).
  destruct (Cxx.vec_at (buttons joy) (laserToggleButton self)) as [b | ];
    [ | reflexivity ].
  cbn [bind].
  change (laserToggle (set_camTiltButton self c)) with (laserToggle self).
  change (oldLaserToggle (set_camTiltButton self c)) with (oldLaserToggle self).
  destruct (negb _); [ | reflexivity ].
  destruct (laserToggle self =? oldLaserToggle self)%Z; reflexivity.
Qed.

Lemma joyCallback_camTilt (self : OpenROVTeleop) (joy : Joy) (c : Z) :
  joyCallback (set_camTiltButton self c) joy
  = option_map (fun r => (set_camTiltButton (fst r) c, snd r)) (joyCallback self joy).
Proof.
  unfold joyCallback. rewrite joy_thrusters_camTilt.
  destruct (joy_thrusters self joy) as [self1 | ]; [ | reflexivity ].
  cbn [option_map bind]. rewrite joy_lights_camTilt.
  destruct (joy_lights self1 joy) as [ [self2 lights] | ]; [ | reflexivity ].
  cbn [option_map bind fst snd]. rewrite joy_lasers_camTilt.
  destruct (joy_lasers self2 joy) as [ [self3 lasers] | ]; reflexivity.
Qed.

(** X18. The camera-tilt button index is configured and never used:
    whatever index it holds, a run of the node publishes the same
    messages and ends in the same state (up to that index itself), and
    is undefined on the same inputs. *)
Theorem camTiltButton_has_no_effect (events : list Event) :
  forall (self : OpenROVTeleop) (c : Z),
    spin (set_camTiltButton self c) events
    = option_map (fun r => (set_camTiltButton (fst r) c, snd r)) (spin self events).
Proof.
  induction events as [ | e events IH ]; intros self c.
  - reflexivity.
  - cbn [spin].
    assert (Hstep : dispatch (set_camTiltButton self c) e
                    = option_map (fun r => (set_camTiltButton (fst r) c, snd r))
                                 (dispatch self e)).
    { destruct e as [ joy | ]; [ apply joyCallback_camTilt | reflexivity ]. }
    rewrite Hstep.
    destruct (dispatch self e) as [ [self1 out1] | ]; [ | reflexivity ].
    cbn [option_map bind fst snd]. rewrite IH.
    destruct (spin self1 events) as [ [self2 out2] | ]; reflexivity.
Qed.

(** ** The light over a run *)

(** Twelve pushes of the light axis publish ten levels: the last two
    pushes find the level at its maximum. *)
Example light_up_twelve_messages :
  option_map (fun r => length (light_values (snd r)))
    (spin (OpenROVTeleop_new no_params) (repeat (JoyEvent light_up) 12))
  = Some 10%nat.
Proof. vm_compute. reflexivity. Qed.

(** * The code in IEEE arithmetic: properties *)

(** ** Comparisons of floats *)

Lemma SFcompare_swap (x y : spec_float) :
  SFcompare y x = option_map CompOpp (SFcompare x y).
Proof.
  destruct x as [sx | sx | | sx mx ex], y as [sy | sy | | sy my ey];
    simpl; try reflexivity;
    try (destruct sx; reflexivity); try (destruct sy; reflexivity);
    try (destruct sx, sy; reflexivity).
  pose proof (Pos.compare_cont_antisym mx my Eq) as Hm. simpl in Hm.
  destruct sx, sy; try reflexivity;
    rewrite (Z.compare_antisym ex ey);
    destruct (ex ?= ey)%Z; simpl; try reflexivity;
    rewrite <- Hm; try rewrite CompOpp_involutive; reflexivity.
Qed.



Lemma SFltb_true_leb (x y : spec_float) : SFltb x y = true -> SFleb x y = true.
Proof.
  unfold SFltb, SFleb. destruct (SFcompare x y) as [ [ | | ] | ]; congruence.
Qed.

Lemma SFleb_true_ltb (x y : spec_float) : SFleb x y = true -> SFltb y x = false.
Proof.
  unfold SFltb, SFleb. rewrite (SFcompare_swap x y).
  destruct (SFcompare x y) as [ [ | | ] | ]; simpl; congruence.
Qed.

Lemma SFleb_number (x y : spec_float) :
  SFleb x y = true -> is_number x /\ is_number y.
Proof.
  unfold SFleb, is_number. destruct x, y; simpl; try discriminate;
    split; discriminate.
Qed.

Lemma SFcompare_nan_l (y : spec_float) : SFcompare S754_nan y = None.
Proof. reflexivity. Qed.

Lemma SFcompare_nan_r (x : spec_float) : SFcompare x S754_nan = None.
Proof. destruct x; reflexivity. Qed.

(** One of [0 < x], [x < 0], [x == 0] holds exactly when [x] is a
    number. *)
Lemma sign_tests_number (x : spec_float) :
  let zero := IEEE.D.of_Z 0 in
  (IEEE.D.ltb zero x || IEEE.D.ltb x zero || IEEE.D.eqb x zero)%bool = true
  <-> is_number x.
Proof.
  unfold is_number, IEEE.D.ltb, IEEE.D.eqb.
  destruct x as [s | s | | s m e]; simpl; try destruct s; simpl;
    split; intro H; try reflexivity; try discriminate; try congruence.
Qed.

(** ** The thrust curves on doubles *)

(** X1. In the double code a thrust curve returns an assigned value
    exactly when the force is a number: for a NaN force none of
    [fDes > 0], [fDes < 0], [fDes == 0] holds and the function returns
    its local without ever having assigned it. *)
Theorem thrust_curves_assigned_iff_number (f : IEEE.double) :
  (IEEE.computePctThrustGraupner230860 f = None <-> f = IEEE.NaN)
  /\ (IEEE.computePctThrustGraupner230357 f = None <-> f = IEEE.NaN).
Proof.
  pose proof (sign_tests_number f) as H. cbv zeta in H.
  unfold IEEE.computePctThrustGraupner230860, IEEE.computePctThrustGraupner230357.
  destruct (IEEE.D.ltb (IEEE.D.of_Z 0) f) eqn:E1;
    destruct (IEEE.D.ltb f (IEEE.D.of_Z 0)) eqn:E2;
    destruct (IEEE.D.eqb f (IEEE.D.of_Z 0)) eqn:E3;
    simpl in H; unfold is_number in H; cbv zeta iota;
    try (split;
         (split; [ discriminate | intro Hn; exfalso; exact (proj1 H eq_refl Hn) ])).
  assert (Hnan : f = IEEE.NaN).
  { destruct f; try reflexivity; exfalso;
      assert (Hf : false = true) by (apply H; discriminate); discriminate. }
  split; split; auto.
Qed.

(** ** The saturation scale on doubles *)

Lemma ieee_std_max_cases (a b : IEEE.double) :
  IEEE.std_max a b = a \/ IEEE.std_max a b = b.
Proof. unfold IEEE.std_max. destruct (IEEE.D.ltb a b); auto. Qed.

Lemma ieee_std_min_cases (a b : IEEE.double) :
  IEEE.std_min a b = a \/ IEEE.std_min a b = b.
Proof. unfold IEEE.std_min. destruct (IEEE.D.ltb b a); auto. Qed.

(** In doubles too, three fractions that are all within [-1, 1] are left
    alone: the scale is exactly 1. *)
Lemma ieee_limitThrusterSaturation_idle (p v s : IEEE.double) :
  double_in_unit p -> double_in_unit v -> double_in_unit s ->
  IEEE.limitThrusterSaturation p v s = IEEE.D.of_Z 1.
Proof.
  intros [Hp0 Hp1] [Hv0 Hv1] [Hs0 Hs1]. unfold IEEE.limitThrusterSaturation.
  assert (Hmax : IEEE.D.ltb (IEEE.D.of_Z 1)
                            (IEEE.std_max (IEEE.std_max p v) s) = false).
  { apply SFleb_true_ltb.
    destruct (ieee_std_max_cases (IEEE.std_max p v) s) as [-> | ->]; [ | exact Hs1 ].
    destruct (ieee_std_max_cases p v) as [-> | ->]; assumption. }
  assert (Hmin : IEEE.D.ltb (IEEE.std_min (IEEE.std_min p v) s)
                            (IEEE.D.of_Z (-1)) = false).
  { apply SFleb_true_ltb.
    destruct (ieee_std_min_cases (IEEE.std_min p v) s) as [-> | ->]; [ | exact Hs0 ].
    destruct (ieee_std_min_cases p v) as [-> | ->]; assumption. }
  now rewrite Hmin, Hmax.
Qed.

(** C2, as stated, fails in doubles.  An infinite fraction gives the
    scale [1 / inf = 0] and the product [inf * 0] is NaN; and for the
    finite fraction 1.5e308 the scale [1 / 1.5e308] is subnormal, and
    the product is 1.0000000000000002, above 1. *)
Lemma saturation_scale_fails_in_doubles :
  IEEE.limitThrusterSaturation IEEE.infinity (IEEE.D.of_Z 0) (IEEE.D.of_Z 0)
  = S754_zero false
  /\ IEEE.D.mul IEEE.infinity (S754_zero false) = IEEE.NaN
  /\ scaled_in_unitb IEEE.infinity (IEEE.D.of_Z 0) (IEEE.D.of_Z 0) = false
  /\ IEEE.D.mul huge (IEEE.limitThrusterSaturation huge (IEEE.D.of_Z 0) (IEEE.D.of_Z 0))
     = S754_finite false 4503599627370497 (-52)
  /\ scaled_in_unitb huge (IEEE.D.of_Z 0) (IEEE.D.of_Z 0) = false.
Proof. vm_compute. repeat split; reflexivity. Qed.

(** C2, as the code has it.  In the double code, three fractions that
    are all within [-1, 1] get the scale 1 exactly.  In exact arithmetic
    (finite fractions, no rounding) each fraction times the scale lies in
    [-1, 1], and the scale is one positive factor, so ratios are
    kept. *)
Theorem saturation_scale_idle_and_exact :
  (forall p v s : IEEE.double,
      double_in_unit p /\ double_in_unit v /\ double_in_unit s ->
      IEEE.limitThrusterSaturation p v s = IEEE.D.of_Z 1)
  /\ (forall p v s : Q,
         let scale := limitThrusterSaturation p v s in
         in_unit (p * scale) /\ in_unit (v * scale) /\ in_unit (s * scale)
         /\ (in_unit p /\ in_unit v /\ in_unit s -> scale = 1)
         /\ 0 < scale
         /\ (forall x y, ~ y == 0 -> (x * scale) / (y * scale) == x / y)).
Proof.
  split.
  - intros p v s (Hp & Hv & Hs). now apply ieee_limitThrusterSaturation_idle.
  - intros p v s scale. unfold scale.
    destruct (max3_upper p v s) as (Hp1 & Hv1 & Hs1).
    destruct (min3_lower p v s) as (Hp0 & Hv0 & Hs0).
    pose proof (limitThrusterSaturation_pos p v s) as Hpos.
    repeat split.
    1-6: apply limitThrusterSaturation_scales; split; assumption.
    + intros (Hp & Hv & Hs). now apply limitThrusterSaturation_idle.
    + exact Hpos.
    + intros x y Hy. field. split; lra.
Qed.

(** ** The allocation on doubles *)

(** The inverse that the double code computes for the constructor's
    offset, and the forces of scenario B: 0.49999999999999994 where the
    exact inverse has 1/2, and 1.9999999999999998 where the exact forces
    are 2. *)
Example ieee_allocation_inverse :
  let d := IEEE.d (IEEE.OpenROVTeleop_new IEEE.no_params) in
  IEEE.m00 (IEEE.inverse (IEEE.allocation d))
  = S754_finite false 9007199254740991 (-54)
  /\ IEEE.m11 (IEEE.inverse (IEEE.allocation d))
     = S754_finite false 9007199254740991 (-53)
  /\ IEEE.thruster_forces d
       (IEEE.Vector3 (IEEE.D.of_Z 4) (IEEE.D.of_Z 0) (IEEE.D.of_Z 0))
     = IEEE.Vector3 (S754_finite false 9007199254740991 (-52))
                    (S754_zero false)
                    (S754_finite false 9007199254740991 (-52)).
Proof. vm_compute. repeat split; reflexivity. Qed.

(** C1, as stated, fails in doubles.  For the wrench (inf, 0, 0), which
    a sample with an infinite forward axis gives, the forces are
    (inf, NaN, inf) and [A * T] holds NaN, which is within no tolerance
    of anything. *)
Lemma allocation_round_trip_fails_in_doubles :
  let F := IEEE.Vector3 IEEE.infinity (IEEE.D.of_Z 0) (IEEE.D.of_Z 0) in
  IEEE.thruster_forces (IEEE.d (IEEE.OpenROVTeleop_new IEEE.no_params)) F
  = IEEE.Vector3 IEEE.infinity IEEE.NaN IEEE.infinity
  /\ ~ exists tol, round_trip_within tol F = true.
Proof.
  split; [ vm_compute; reflexivity | ].
  intros [tol H]. unfold round_trip_within, within in H.
  apply andb_true_iff in H. destruct H as [H _].
  apply andb_true_iff in H. destruct H as [_ H].
  apply SFleb_number in H. destruct H as [H _]. apply H.
  vm_compute. reflexivity.
Qed.

(** ** The callback on doubles *)

(** Scenario B in doubles: the forces are 1.9999999999999998, and the
    stored command is the one of the exact computation. *)
Example ieee_scenario_B :
  option_map (fun r => IEEE.motor_cmds (fst r))
    (IEEE.joyCallback (IEEE.OpenROVTeleop_new IEEE.no_params)
                      (one_axis 1 (IEEE.F.of_Z 1)))
  = Some {| motors0 := 1568; motors1 := 1500; motors2 := 1568 |}.
Proof. vm_compute. reflexivity. Qed.

(** C6, as stated, fails in doubles.  A sample whose forward axis reads
    +inf covers every configured index, but its forces are (inf, NaN,
    inf): the vertical curve returns its unassigned local, and the call
    does not come back with a command in the servo range. *)
Lemma infinite_axis_no_valid_command :
  let self := IEEE.OpenROVTeleop_new IEEE.no_params in
  let joy := one_axis 1 IEEE.infinity in
  (index_ok (IEEE.axes joy) (IEEE.x_controllerAxis self)
   /\ index_ok (IEEE.axes joy) (IEEE.z_controllerAxis self)
   /\ index_ok (IEEE.axes joy) (IEEE.yaw_controllerAxis self)
   /\ index_ok (IEEE.axes joy) (IEEE.lightsAdjButton self)
   /\ index_ok (IEEE.buttons joy) (IEEE.laserToggleButton self))
  /\ option_map (IEEE.thruster_forces (IEEE.d self)) (IEEE.desired_wrench self joy)
     = Some (IEEE.Vector3 IEEE.infinity IEEE.NaN IEEE.infinity)
  /\ ~ stores_valid_command self joy.
Proof.
  split; [ | split ].
  - unfold index_ok. simpl. lia.
  - vm_compute. reflexivity.
  - intros (self' & out & H & _). vm_compute in H. discriminate.
Qed.

(** ** The light on floats *)


(** ** Rounding never yields NaN, and where it overflows *)

Section Rounding.

Variables prec emax : Z.
Hypothesis Hprec : (0 < prec)%Z.
Hypothesis Hemax : (2 <= emax)%Z.















End Rounding.

(** ** The light accumulator on floats *)










Lemma light_sum_nan (l : IEEE.float) : IEEE.light_sum l IEEE.NaN = IEEE.NaN.
Proof.
  unfold IEEE.light_sum. simpl IEEE.double_of_float at 2.
  change (IEEE.D.mul IEEE.NaN (IEEE.D.opp (IEEE.D.lit 1 10))) with IEEE.NaN.
  destruct (IEEE.double_of_float l); reflexivity.
Qed.



Lemma clamp_light_nan : IEEE.clamp_light IEEE.NaN = IEEE.NaN.
Proof. reflexivity. Qed.



(** ** Equality of floats *)





(** ** The callback on floats, in closed form *)










(** The run of the witness: one push up, an infinite push down, an
    infinite push up. *)
Example ieee_light_run_values :
  option_map (fun r => (IEEE.lightVal (fst r), ieee_light_values (snd r)))
    (IEEE.spin (IEEE.OpenROVTeleop_new IEEE.no_params)
       [IEEE.JoyEvent (one_axis 6 (IEEE.F.of_Z (-1)));
        IEEE.JoyEvent (one_axis 6 IEEE.infinity);
        IEEE.TimerEvent;
        IEEE.JoyEvent (one_axis 6 (S754_infinity true))])
  = Some (IEEE.F.of_Z 1,
          [S754_finite false 13421773 (-27); S754_zero false; IEEE.F.of_Z 1]).
Proof. vm_compute. reflexivity. Qed.

(** ** The light messages on floats *)





(** Twelve pushes up in floats: ten messages, the levels rounded to
    binary32 at every step, the last one exactly 1. *)
Example ieee_light_up_twelve_messages :
  option_map (fun r => (length (ieee_light_values (snd r)),
                        last (ieee_light_values (snd r)) IEEE.NaN))
    (IEEE.spin (IEEE.OpenROVTeleop_new IEEE.no_params)
       (repeat (IEEE.JoyEvent (one_axis 6 (IEEE.F.of_Z (-1)))) 12))
  = Some (10%nat, IEEE.F.of_Z 1).
Proof. vm_compute. reflexivity. Qed.
